(** * PhotoSlider: the gesture-to-transform state machine of react-photo-view

    A shallow embedding of [src/PhotoSlider.tsx].  The component is a React
    class: its state is a record, every handler hands an object literal to
    [this.setState], and React merges that literal into the state key by
    key.  The embedding keeps that shape: a handler builds a [Patch] (the
    list of assignments of the literal) and [setState] folds it over the
    state.  Calls of the [onClose] and [onIndexChange] props are recorded as
    the list of callbacks a handler fires, in call order.

    Numbers.  Pixel coordinates, offsets and opacities are JavaScript
    numbers; they are read here as exact rationals ([Q]), with the
    comparisons of the source as boolean tests on [Q].  The photo index and
    [images.length] are integers ([Z]); [inject_Z] is the place where an
    index enters pixel arithmetic.

    The constants [defaultOpacity], [horizontalOffset] and [maxMoveOffset]
    are imported from [./variables], and [dataType] from [./types]; neither
    file is part of the sources at hand, so the development is parametric
    in the three constants (the class [variables]) and in [dataType]. *)

From Stdlib Require Import ZArith QArith Qminmax Qabs List Bool Lia Lqa.
From Stdlib Require String.
Import String.StringSyntax.
Delimit Scope string_scope with string.
Import ListNotations.

Open Scope Q_scope.

(** ** JavaScript helpers *)

Module JS.

(** [x < y] and [x > y] on numbers. *)
Definition ltb (x y : Q) : bool := negb (Qle_bool y x).
Definition gtb (x y : Q) : bool := ltb y x.

(** [x === 1] and friends on numbers. *)
Definition eqb (x y : Q) : bool := Qeq_bool x y.

(** A destructuring default, [const { k = d } = obj]: [d] replaces
    [undefined]. *)
Definition withDefault {A : Type} (d : A) (v : option A) : A :=
  match v with
  | Some a => a
  | None => d
  end.

(** [arr.length] *)
Definition len {A : Type} (arr : list A) : Z := Z.of_nat (length arr).

(** [arr[i]] for an integer [i]: [undefined] outside [0 .. length - 1]. *)
Definition get {A : Type} (arr : list A) (i : Z) : option A :=
  if (i <? 0)%Z then None else nth_error arr (Z.to_nat i).

(** The relative-index clamp of [Array.prototype.slice]: a negative
    argument counts from the end, and the result stays within
    [0 .. length]. *)
Definition relIndex (n i : Z) : Z :=
  if (i <? 0)%Z then Z.max (n + i) 0 else Z.min i n.

(** [arr.slice(start, end)] *)
Definition slice {A : Type} (arr : list A) (start end_ : Z) : list A :=
  let k := relIndex (len arr) start in
  let final := relIndex (len arr) end_ in
  firstn (Z.to_nat (final - k)) (skipn (Z.to_nat k) arr).

(** [arr.map((item, index) => f(item, index))], the index counted from
    [i]. *)
Fixpoint mapFrom {A B : Type} (f : A -> Z -> B) (i : Z) (arr : list A)
  : list B :=
  match arr with
  | [] => []
  | item :: rest => f item i :: mapFrom f (i + 1)%Z rest
  end.

Definition map {A B : Type} (f : A -> Z -> B) (arr : list A) : list B :=
  mapFrom f 0%Z arr.

End JS.

(** ** The component *)

(** [window], as far as the component reads it. *)
Record Window : Type := {
  innerWidth : Q;
  innerHeight : Q
}.

(** [PhotoSliderState] *)
Record PhotoSliderState : Type := {
  translateX : Q;
  photoIndex : Z;
  touched : bool;
  shouldTransition : bool;
  lastClientX : option Q;
  lastClientY : option Q;
  backdropOpacity : Q;
  overlayVisible : bool;
  canPullClose : bool
}.

(** One [key: value] entry of an object literal handed to [setState]. *)
Inductive Assign : Type :=
| set_translateX (v : Q)
| set_photoIndex (v : Z)
| set_touched (v : bool)
| set_shouldTransition (v : bool)
| set_lastClientX (v : option Q)
| set_lastClientY (v : option Q)
| set_backdropOpacity (v : Q)
| set_overlayVisible (v : bool)
| set_canPullClose (v : bool).

Definition Patch : Type := list Assign.

Definition assign (s : PhotoSliderState) (a : Assign) : PhotoSliderState :=
  match a with
  | set_translateX v =>
      {| translateX := v; photoIndex := photoIndex s; touched := touched s;
         shouldTransition := shouldTransition s;
         lastClientX := lastClientX s; lastClientY := lastClientY s;
         backdropOpacity := backdropOpacity s;
         overlayVisible := overlayVisible s;
         canPullClose := canPullClose s |}
  | set_photoIndex v =>
      {| translateX := translateX s; photoIndex := v; touched := touched s;
         shouldTransition := shouldTransition s;
         lastClientX := lastClientX s; lastClientY := lastClientY s;
         backdropOpacity := backdropOpacity s;
         overlayVisible := overlayVisible s;
         canPullClose := canPullClose s |}
  | set_touched v =>
      {| translateX := translateX s; photoIndex := photoIndex s;
         touched := v; shouldTransition := shouldTransition s;
         lastClientX := lastClientX s; lastClientY := lastClientY s;
         backdropOpacity := backdropOpacity s;
         overlayVisible := overlayVisible s;
         canPullClose := canPullClose s |}
  | set_shouldTransition v =>
      {| translateX := translateX s; photoIndex := photoIndex s;
         touched := touched s; shouldTransition := v;
         lastClientX := lastClientX s; lastClientY := lastClientY s;
         backdropOpacity := backdropOpacity s;
         overlayVisible := overlayVisible s;
         canPullClose := canPullClose s |}
  | set_lastClientX v =>
      {| translateX := translateX s; photoIndex := photoIndex s;
         touched := touched s; shouldTransition := shouldTransition s;
         lastClientX := v; lastClientY := lastClientY s;
         backdropOpacity := backdropOpacity s;
         overlayVisible := overlayVisible s;
         canPullClose := canPullClose s |}
  | set_lastClientY v =>
      {| translateX := translateX s; photoIndex := photoIndex s;
         touched := touched s; shouldTransition := shouldTransition s;
         lastClientX := lastClientX s; lastClientY := v;
         backdropOpacity := backdropOpacity s;
         overlayVisible := overlayVisible s;
         canPullClose := canPullClose s |}
  | set_backdropOpacity v =>
      {| translateX := translateX s; photoIndex := photoIndex s;
         touched := touched s; shouldTransition := shouldTransition s;
         lastClientX := lastClientX s; lastClientY := lastClientY s;
         backdropOpacity := v;
         overlayVisible := overlayVisible s;
         canPullClose := canPullClose s |}
  | set_overlayVisible v =>
      {| translateX := translateX s; photoIndex := photoIndex s;
         touched := touched s; shouldTransition := shouldTransition s;
         lastClientX := lastClientX s; lastClientY := lastClientY s;
         backdropOpacity := backdropOpacity s;
         overlayVisible := v;
         canPullClose := canPullClose s |}
  | set_canPullClose v =>
      {| translateX := translateX s; photoIndex := photoIndex s;
         touched := touched s; shouldTransition := shouldTransition s;
         lastClientX := lastClientX s; lastClientY := lastClientY s;
         backdropOpacity := backdropOpacity s;
         overlayVisible := overlayVisible s;
         canPullClose := v |}
  end.

(** [this.setState(patch)]: the patch is merged into the state, entry by
    entry. *)
Definition setState (s : PhotoSliderState) (patch : Patch)
  : PhotoSliderState :=
  fold_left assign patch s.

(** A call of one of the callback props. *)
Inductive Callback : Type :=
| onClose
| onIndexChange (photoIndex : Z).

(** What a handler leaves behind: the next state and the callbacks it
    fired. *)
Definition Outcome : Type := (PhotoSliderState * list Callback)%type.

(** [ReachTypeEnum] comes from [./types]; the component tells [XReach] and
    [YReach] apart from every other value. *)
Inductive ReachTypeEnum : Type :=
| XReach
| YReach
| OtherReach.

(** The keys [handleKeyDown] looks at. *)
Inductive Key : Type :=
| ArrowLeft
| ArrowRight
| Escape
| OtherKey.

(** What reaches the component from outside: the callbacks that [render]
    binds on every [<PhotoView>] ([onReachMove], [onReachUp], [onPhotoTap],
    [onMaskTap], [onPhotoResize]) and the [keydown] listener that
    [componentDidMount] installs. *)
Inductive Event : Type :=
| ReachMove (reachState : ReachTypeEnum) (clientX clientY : Q)
    (scale : option Q)
| ReachUp (clientX clientY : Q)
| PhotoTap
| MaskTap
| PhotoResize
| KeyDown (key : Key).

(** The exports of [./variables] that the component imports. *)
Class variables : Type := {
  defaultOpacity : Q;
  horizontalOffset : Q;
  maxMoveOffset : Q
}.

(** [IPhotoSliderProps], the props the handlers read.  [onIndexChange] is
    optional: [hasOnIndexChange] says whether it was passed. *)
Record IPhotoSliderProps (dataType : Type) : Type := {
  images : list dataType;
  index : option Z;
  visible : bool;
  hasOnIndexChange : bool;
  maskClosable : bool;
  photoClosable : bool
}.

Arguments images {dataType} _.
Arguments index {dataType} _.
Arguments visible {dataType} _.
Arguments hasOnIndexChange {dataType} _.
Arguments maskClosable {dataType} _.
Arguments photoClosable {dataType} _.

(** What [render] computes from the state for one [<PhotoView>] of the
    [images.slice(...).map(...)] expression: the item it shows, its
    [realIndex], its [left] style offset and its [isActive] flag. *)
Record PhotoViewElement (dataType : Type) : Type := {
  item : dataType;
  realIndex : Z;
  styleLeft : Q;
  isActive : bool
}.

Arguments item {dataType} _.
Arguments realIndex {dataType} _.
Arguments styleLeft {dataType} _.
Arguments isActive {dataType} _.

Section PhotoSlider.

Context {dataType : Type} {vars : variables}.

(** [static getDerivedStateFromProps(nextProps, prevState)]: a patch, or
    [null]. *)
Definition getDerivedStateFromProps (w : Window)
    (nextProps : IPhotoSliderProps dataType) (prevState : PhotoSliderState)
  : option Patch :=
  match index nextProps with
  | Some i =>
      if negb (i =? photoIndex prevState)%Z then
        Some [ set_photoIndex i;
               set_translateX
                 (- (innerWidth w + horizontalOffset) * inject_Z i) ]
      else None
  | None => None
  end.

(** React's use of the result: a patch is merged, [null] changes
    nothing. *)
Definition applyDerivedState (w : Window) (nextProps : IPhotoSliderProps dataType)
    (prevState : PhotoSliderState) : PhotoSliderState :=
  match getDerivedStateFromProps w nextProps prevState with
  | Some patch => setState prevState patch
  | None => prevState
  end.

(** The state the [constructor] sets. *)
Definition initialState : PhotoSliderState :=
  {| translateX := 0;
     photoIndex := 0;
     touched := false;
     shouldTransition := true;
     lastClientX := None;
     lastClientY := None;
     backdropOpacity := defaultOpacity;
     overlayVisible := true;
     canPullClose := true |}.

Definition componentDidMount (w : Window) (props : IPhotoSliderProps dataType)
    (s : PhotoSliderState) : PhotoSliderState :=
  let index := JS.withDefault 0%Z (index props) in
  setState s
    [ set_translateX (inject_Z index * - (innerWidth w + horizontalOffset));
      set_photoIndex index ].

Definition handleClose (s : PhotoSliderState) : Outcome :=
  (setState s [ set_overlayVisible true ], [ onClose ]).

Definition handlePhotoTap (props : IPhotoSliderProps dataType) (s : PhotoSliderState)
  : Outcome :=
  if photoClosable props then handleClose s
  else (setState s [ set_overlayVisible (negb (overlayVisible s)) ], []).

Definition handlePhotoMaskTap (props : IPhotoSliderProps dataType)
    (s : PhotoSliderState) : Outcome :=
  if maskClosable props then handleClose s else (s, []).

Definition handleResize (w : Window) (s : PhotoSliderState)
  : PhotoSliderState :=
  setState s
    [ set_translateX
        (- (innerWidth w + horizontalOffset) * inject_Z (photoIndex s));
      set_lastClientX None;
      set_lastClientY None ].

(** [scale] is an optional argument of [handleReachMove], so it may be
    [undefined] here. *)
Definition handleReachVerticalMove (clientY : Q) (scale : option Q)
    (s : PhotoSliderState) : PhotoSliderState :=
  let scaleIsOne :=
    match scale with
    | Some v => JS.eqb v 1
    | None => false
    end in
  match lastClientY s with
  | None =>
      setState s
        [ set_touched true;
          set_lastClientY (Some clientY);
          set_backdropOpacity (backdropOpacity s);
          set_canPullClose true ]
  | Some lastClientY =>
      let offsetClientY := Qabs (clientY - lastClientY) in
      let opacity :=
        Qmax (Qmin defaultOpacity (defaultOpacity - offsetClientY / 100 / 2))
             0 in
      setState s
        [ set_touched true;
          set_lastClientY (Some lastClientY);
          set_backdropOpacity (if scaleIsOne then opacity else defaultOpacity);
          set_canPullClose scaleIsOne ]
  end.

Definition handleReachHorizontalMove (w : Window) (props : IPhotoSliderProps dataType)
    (clientX : Q) (s : PhotoSliderState) : PhotoSliderState :=
  match lastClientX s with
  | None =>
      setState s
        [ set_touched true;
          set_lastClientX (Some clientX);
          set_translateX (translateX s);
          set_shouldTransition true ]
  | Some lastClientX =>
      let originOffsetClientX := clientX - lastClientX in
      let offsetClientX :=
        if ((photoIndex s =? 0)%Z && JS.gtb originOffsetClientX 0)
           || ((photoIndex s =? JS.len (images props) - 1)%Z
               && JS.ltb originOffsetClientX 0)
        then originOffsetClientX / 2
        else originOffsetClientX in
      setState s
        [ set_touched true;
          set_lastClientX (Some lastClientX);
          set_translateX
            (- (innerWidth w + horizontalOffset) * inject_Z (photoIndex s)
             + offsetClientX);
          set_shouldTransition true ]
  end.

(** [handleIndexChange(photoIndex, shouldTransition = true)]: the second
    argument is [None] when the caller leaves it out or passes
    [undefined]. *)
Definition handleIndexChange (w : Window) (props : IPhotoSliderProps dataType)
    (photoIndex : Z) (shouldTransition : option bool) (s : PhotoSliderState)
  : Outcome :=
  let shouldTransition := JS.withDefault true shouldTransition in
  let singlePageWidth := innerWidth w + horizontalOffset in
  let translateX := - singlePageWidth * inject_Z photoIndex in
  (setState s
     [ set_touched false;
       set_lastClientX None;
       set_lastClientY None;
       set_translateX translateX;
       set_photoIndex photoIndex;
       set_shouldTransition shouldTransition ],
   if hasOnIndexChange props then [ onIndexChange photoIndex ] else []).

Definition handlePrevious (w : Window) (props : IPhotoSliderProps dataType)
    (shouldTransition : option bool) (s : PhotoSliderState) : Outcome :=
  if (photoIndex s >? 0)%Z
  then handleIndexChange w props (photoIndex s - 1)%Z shouldTransition s
  else (s, []).

Definition handleNext (w : Window) (props : IPhotoSliderProps dataType)
    (shouldTransition : option bool) (s : PhotoSliderState) : Outcome :=
  if (photoIndex s <? JS.len (images props) - 1)%Z
  then handleIndexChange w props (photoIndex s + 1)%Z shouldTransition s
  else (s, []).

Definition handleKeyDown (w : Window) (props : IPhotoSliderProps dataType)
    (key : Key) (s : PhotoSliderState) : Outcome :=
  if visible props then
    match key with
    | ArrowLeft => handlePrevious w props (Some false) s
    | ArrowRight => handleNext w props (Some false) s
    | Escape => handleClose s
    | OtherKey => (s, [])
    end
  else (s, []).

Definition handleReachMove (w : Window) (props : IPhotoSliderProps dataType)
    (reachState : ReachTypeEnum) (clientX clientY : Q) (scale : option Q)
    (s : PhotoSliderState) : PhotoSliderState :=
  match reachState with
  | XReach => handleReachHorizontalMove w props clientX s
  | YReach => handleReachVerticalMove clientY scale s
  | OtherReach => s
  end.

Definition handleReachUp (w : Window) (props : IPhotoSliderProps dataType)
    (clientX clientY : Q) (s : PhotoSliderState) : Outcome :=
  let lastClientX := JS.withDefault clientX (lastClientX s) in
  let lastClientY := JS.withDefault clientY (lastClientY s) in
  let offsetClientX := clientX - lastClientX in
  let offsetClientY := clientY - lastClientY in
  if JS.ltb offsetClientX (- maxMoveOffset)
     && (photoIndex s <? JS.len (images props) - 1)%Z
  then handleIndexChange w props (photoIndex s + 1)%Z None s
  else if JS.gtb offsetClientX maxMoveOffset && (photoIndex s >? 0)%Z
  then handleIndexChange w props (photoIndex s - 1)%Z None s
  else
    let singlePageWidth := innerWidth w + horizontalOffset in
    let currentTranslateX := - singlePageWidth * inject_Z (photoIndex s) in
    let currentPhotoIndex := photoIndex s in
    let isChangeVisible :=
      JS.gtb (Qabs offsetClientY) (innerHeight w * 0.14) && canPullClose s in
    (setState s
       [ set_touched false;
         set_translateX currentTranslateX;
         set_photoIndex currentPhotoIndex;
         set_lastClientX None;
         set_lastClientY None;
         set_backdropOpacity defaultOpacity;
         set_overlayVisible
           (if isChangeVisible then true else overlayVisible s) ],
     if isChangeVisible then [ onClose ] else []).

(** *** [render]

    Of the element tree only the part computed from the state is kept:
    [currentImage] and the list of [<PhotoView>] elements.  Whether the
    tree is shown at all is decided by [VisibleAnimationHandle], which is
    not part of this file. *)

Definition currentImage (props : IPhotoSliderProps dataType) (s : PhotoSliderState)
  : option dataType :=
  if negb (JS.len (images props) =? 0)%Z
  then JS.get (images props) (photoIndex s)
  else None.

Definition renderPhotoViews (w : Window) (props : IPhotoSliderProps dataType)
    (s : PhotoSliderState) : list (PhotoViewElement dataType) :=
  let imageLength := JS.len (images props) in
  JS.map
    (fun (item : dataType) (index : Z) =>
       let realIndex :=
         if (photoIndex s =? 0)%Z
         then (photoIndex s + index)%Z
         else (photoIndex s - 1 + index)%Z in
       {| item := item;
          realIndex := realIndex;
          styleLeft := (innerWidth w + horizontalOffset) * inject_Z realIndex;
          isActive := (photoIndex s =? realIndex)%Z |})
    (JS.slice (images props)
       (Z.max (photoIndex s - 1) 0)
       (Z.min (photoIndex s + 2) (imageLength + 1))).

(** *** Vocabulary of the statements *)

(** The largest and smallest photo index, and being within them. *)
Definition inBounds (props : IPhotoSliderProps dataType) (s : PhotoSliderState)
  : Prop :=
  (0 <= photoIndex s <= JS.len (images props) - 1)%Z.

(** The resting position of a page: the slider is aligned when its offset
    is that of its photo index. *)
Definition aligned (w : Window) (s : PhotoSliderState) : Prop :=
  translateX s
  = - (innerWidth w + horizontalOffset) * inject_Z (photoIndex s).

(** A release at [clientX] turns the page forwards, backwards, or at
    all.  The horizontal offset is measured from the baseline, and from
    [clientX] itself when none was set. *)
Definition turnsToNext (props : IPhotoSliderProps dataType) (clientX : Q)
    (s : PhotoSliderState) : Prop :=
  clientX - JS.withDefault clientX (lastClientX s) < - maxMoveOffset
  /\ (photoIndex s < JS.len (images props) - 1)%Z.

Definition turnsToPrevious (props : IPhotoSliderProps dataType) (clientX : Q)
    (s : PhotoSliderState) : Prop :=
  clientX - JS.withDefault clientX (lastClientX s) > maxMoveOffset
  /\ (photoIndex s > 0)%Z.

Definition turnsPage (props : IPhotoSliderProps dataType) (clientX : Q)
    (s : PhotoSliderState) : Prop :=
  turnsToNext props clientX s \/ turnsToPrevious props clientX s.

(** A horizontal move by [delta] pushes against an end of the gallery. *)
Definition atEdge (props : IPhotoSliderProps dataType) (delta : Q)
    (s : PhotoSliderState) : Prop :=
  (photoIndex s = 0%Z /\ delta > 0)
  \/ (photoIndex s = (JS.len (images props) - 1)%Z /\ delta < 0).

(** [scale === 1] *)
Definition scaleIsOne (scale : option Q) : Prop :=
  exists v, scale = Some v /\ v == 1.

(** The integers [lo, lo + 1, ..., hi]. *)
Definition indicesBetween (lo hi : Z) : list Z :=
  List.map (fun k => (lo + Z.of_nat k)%Z) (seq 0 (Z.to_nat (hi - lo + 1))).

(** The [transition] style [render] gives every [<PhotoView>]:
    [undefined] while a gesture is on or when the last index change asked
    for none. *)
Definition renderTransition (s : PhotoSliderState) : option String.string :=
  if touched s || negb (shouldTransition s)
  then None
  else Some "transform 0.6s cubic-bezier(0.25, 0.8, 0.25, 1)"%string.

(** *** The component as a state machine *)

(** One event, routed to the handler bound to it.  [handleResize] is
    debounced in the constructor; [PhotoResize] is a call the debounce
    lets through. *)
Definition dispatch (w : Window) (props : IPhotoSliderProps dataType)
    (e : Event) (s : PhotoSliderState) : Outcome :=
  match e with
  | ReachMove reachState clientX clientY scale =>
      (handleReachMove w props reachState clientX clientY scale s, [])
  | ReachUp clientX clientY => handleReachUp w props clientX clientY s
  | PhotoTap => handlePhotoTap props s
  | MaskTap => handlePhotoMaskTap props s
  | PhotoResize => (handleResize w s, [])
  | KeyDown key => handleKeyDown w props key s
  end.

(** A sequence of events, with the callbacks fired along the way. *)
Fixpoint run (w : Window) (props : IPhotoSliderProps dataType)
    (events : list Event) (s : PhotoSliderState) : Outcome :=
  match events with
  | [] => (s, [])
  | e :: rest =>
      let (s1, fired1) := dispatch w props e s in
      let (s2, fired2) := run w props rest s1 in
      (s2, fired1 ++ fired2)
  end.


(** No gesture is in progress: nothing is touched and no baseline is
    set. *)
Definition idle (s : PhotoSliderState) : Prop :=
  touched s = false /\ lastClientX s = None /\ lastClientY s = None.



End PhotoSlider.

(** ** A gallery to run the handlers on

    Five photos, named by number, on a 375 x 667 window; the
    backdrop is opaque at rest, pages are 20 pixels apart and a page turns
    after 40 pixels. *)

Definition demoVariables : variables :=
  {| defaultOpacity := 1; horizontalOffset := 20; maxMoveOffset := 40 |}.

Definition demoWindow : Window :=
  {| innerWidth := 375; innerHeight := 667 |}.

Definition demoProps : IPhotoSliderProps nat :=
  {| images := [ 1; 2; 3; 4; 5 ]%nat;
     index := None;
     visible := true;
     hasOnIndexChange := true;
     maskClosable := true;
     photoClosable := false |}.

(** The mounted component, then moved to the third photo. *)
Definition demoMounted : PhotoSliderState :=
  componentDidMount (vars := demoVariables) demoWindow demoProps
    (initialState (vars := demoVariables)).

Definition demoThird : PhotoSliderState :=
  fst (handleIndexChange (vars := demoVariables) demoWindow demoProps 2%Z
         None demoMounted).

(** A horizontal gesture that started at [x = 200], and a vertical one that
    started at [y = 300], both on the third photo; and a horizontal one on
    the first photo. *)
Definition demoDragX : PhotoSliderState :=
  handleReachHorizontalMove (vars := demoVariables) demoWindow demoProps 200
    demoThird.

Definition demoDragY : PhotoSliderState :=
  handleReachVerticalMove (vars := demoVariables) 300 (Some 1) demoThird.

Definition demoDragFirst : PhotoSliderState :=
  handleReachHorizontalMove (vars := demoVariables) demoWindow demoProps 200
    demoMounted.

(** The same gallery with the index controlled from outside, set to the
    last photo. *)
Definition demoControlled : IPhotoSliderProps nat :=
  {| images := images demoProps;
     index := Some 4%Z;
     visible := true;
     hasOnIndexChange := true;
     maskClosable := true;
     photoClosable := false |}.

(** The gallery with a controlled index below zero, and the state derived
    from it. *)
Definition demoBelow : IPhotoSliderProps nat :=
  {| images := images demoProps;
     index := Some (- 3)%Z;
     visible := true;
     hasOnIndexChange := true;
     maskClosable := true;
     photoClosable := false |}.

Definition demoBelowState : PhotoSliderState :=
  applyDerivedState (vars := demoVariables) demoWindow demoBelow demoMounted.


Section PhotoSliderFacts.

Context {dataType : Type} {vars : variables}.

(** ** Facts about the helpers *)

Lemma ltb_lt (x y : Q) : JS.ltb x y = true <-> x < y.
Proof.
  unfold JS.ltb. rewrite negb_true_iff. split.
  - intros H. apply Qnot_le_lt. intros Hle.
    apply Qle_bool_iff in Hle. congruence.
  - intros H. destruct (Qle_bool y x) eqn:E; [ | reflexivity ].
    apply Qle_bool_iff in E. exfalso. exact (Qlt_not_le _ _ H E).
Qed.

Lemma ltb_ge (x y : Q) : JS.ltb x y = false <-> y <= x.
Proof.
  unfold JS.ltb. rewrite negb_false_iff. apply Qle_bool_iff.
Qed.

Lemma gtb_gt (x y : Q) : JS.gtb x y = true <-> x > y.
Proof. unfold JS.gtb. apply ltb_lt. Qed.

Lemma gtb_le (x y : Q) : JS.gtb x y = false <-> x <= y.
Proof. unfold JS.gtb. apply ltb_ge. Qed.

Lemma Qmult_swap (x y : Q) : x * y = y * x.
Proof.
  unfold Qmult. f_equal; [ apply Z.mul_comm | apply Pos.mul_comm ].
Qed.

(** The boolean tests of the source, read as propositions. *)
Ltac reflect_tests :=
  repeat match goal with
    | H : JS.ltb _ _ = true |- _ => apply ltb_lt in H
    | H : JS.ltb _ _ = false |- _ => apply ltb_ge in H
    | H : JS.gtb _ _ = true |- _ => apply gtb_gt in H
    | H : JS.gtb _ _ = false |- _ => apply gtb_le in H
    | H : (_ <? _)%Z = true |- _ => apply Z.ltb_lt in H
    | H : (_ <? _)%Z = false |- _ => apply Z.ltb_ge in H
    | H : (_ >? _)%Z = true |- _ => rewrite Z.gtb_ltb in H
    | H : (_ >? _)%Z = false |- _ => rewrite Z.gtb_ltb in H
    | H : (_ =? _)%Z = true |- _ => apply Z.eqb_eq in H
    | H : (_ =? _)%Z = false |- _ => apply Z.eqb_neq in H
    end.

(** ** Release: page turns, pull-to-close, snap-back *)

(** The three ways [handleReachUp] can go, by the tests it makes. *)
Lemma handleReachUp_cases (w : Window) (props : IPhotoSliderProps dataType)
    (clientX clientY : Q) (s : PhotoSliderState) :
  let out := handleReachUp w props clientX clientY s in
  (turnsToNext props clientX s
   /\ out = handleIndexChange w props (photoIndex s + 1)%Z None s)
  \/ (~ turnsToNext props clientX s /\ turnsToPrevious props clientX s
      /\ out = handleIndexChange w props (photoIndex s - 1)%Z None s)
  \/ (~ turnsPage props clientX s
      /\ fst out
         = setState s
             [ set_touched false;
               set_translateX
                 (- (innerWidth w + horizontalOffset)
                  * inject_Z (photoIndex s));
               set_photoIndex (photoIndex s);
               set_lastClientX None;
               set_lastClientY None;
               set_backdropOpacity defaultOpacity;
               set_overlayVisible
                 (if JS.gtb
                       (Qabs (clientY
                              - JS.withDefault clientY (lastClientY s)))
                       (innerHeight w * 0.14)
                     && canPullClose s
                  then true else overlayVisible s) ]
      /\ snd out
         = if JS.gtb
                (Qabs (clientY - JS.withDefault clientY (lastClientY s)))
                (innerHeight w * 0.14)
              && canPullClose s
           then [ onClose ] else []).
Proof.
  unfold handleReachUp, turnsPage, turnsToNext, turnsToPrevious.
  destruct (JS.ltb _ (- maxMoveOffset)) eqn:E1;
    destruct (photoIndex s <? JS.len (images props) - 1)%Z eqn:E2;
    destruct (JS.gtb _ maxMoveOffset) eqn:E3;
    destruct (photoIndex s >? 0)%Z eqn:E4;
    reflect_tests; cbn [andb fst snd];
    try (left; split; [ split; assumption | reflexivity ]);
    try (right; left; split;
         [ intros [? ?]; (lia || lra)
         | split; [ split; [ assumption | lia ] | reflexivity ] ]);
    right; right; (split; [ | split; reflexivity ]);
    intros [[? ?] | [? ?]]; (lia || lra).
Qed.

(** C1.  A release with a horizontal baseline [lx] decides the page turn by
    two thresholds on [clientX - lx]: the slider goes to [photoIndex + 1]
    exactly when the offset is below [- maxMoveOffset] and a next photo
    exists, to [photoIndex - 1] exactly when it is above [maxMoveOffset]
    and a previous photo exists, and keeps [photoIndex] otherwise.  A turn
    is a call of [handleIndexChange] with the new index.  The threshold
    [maxMoveOffset] is a distance, taken non-negative.  Only the offset
    enters the decision; no time does. *)
Theorem handleReachUp_page_turn_thresholds (w : Window)
    (props : IPhotoSliderProps dataType) (clientX clientY lx : Q)
    (s : PhotoSliderState) :
  0 <= maxMoveOffset ->
  lastClientX s = Some lx ->
  let out := handleReachUp w props clientX clientY s in
  let next :=
    clientX - lx < - maxMoveOffset
    /\ (photoIndex s < JS.len (images props) - 1)%Z in
  let previous :=
    clientX - lx > maxMoveOffset /\ (photoIndex s > 0)%Z in
  (photoIndex (fst out) = (photoIndex s + 1)%Z <-> next)
  /\ (photoIndex (fst out) = (photoIndex s - 1)%Z <-> previous)
  /\ (~ next -> ~ previous -> photoIndex (fst out) = photoIndex s)
  /\ (next -> out = handleIndexChange w props (photoIndex s + 1)%Z None s)
  /\ (previous ->
      out = handleIndexChange w props (photoIndex s - 1)%Z None s).
Proof.
  intros Hm Hlx out next previous.
  assert (Hexcl : next -> previous -> False).
  { intros [Hn _] [Hp _]. lra. }
  pose proof (handleReachUp_cases w props clientX clientY s) as Hc.
  unfold turnsPage, turnsToNext, turnsToPrevious in Hc.
  rewrite Hlx in Hc. cbn [JS.withDefault] in Hc.
  fold out next previous in Hc. clearbody next previous.
  destruct Hc as [[Hn Ho] | [[Hnn [Hp Ho]] | [Hnone [Ho _]]]].
  - rewrite Ho. cbn. repeat split; intros; try tauto; try lia.
  - rewrite Ho. cbn. repeat split; intros; try tauto; try lia.
  - assert (Hk : photoIndex (fst out) = photoIndex s)
      by (rewrite Ho; reflexivity).
    repeat split; intros; try tauto; try lia.
Qed.

(** C3.  A release with a vertical baseline [ly] that turns no page calls
    [onClose] exactly when [|clientY - ly| > 0.14 * window.innerHeight]
    and [canPullClose] holds; it is called once, and then
    [overlayVisible] is set to [true]. *)
Theorem handleReachUp_pull_to_close (w : Window) (props : IPhotoSliderProps dataType)
    (clientX clientY ly : Q) (s : PhotoSliderState) :
  lastClientY s = Some ly ->
  ~ turnsPage props clientX s ->
  let out := handleReachUp w props clientX clientY s in
  let pulled :=
    Qabs (clientY - ly) > 0.14 * innerHeight w /\ canPullClose s = true in
  (In onClose (snd out) <-> pulled)
  /\ (pulled -> snd out = [ onClose ] /\ overlayVisible (fst out) = true)
  /\ (~ pulled -> snd out = []).
Proof.
  intros Hly Hno out pulled.
  pose proof (handleReachUp_cases w props clientX clientY s) as Hc.
  fold out in Hc.
  destruct Hc as [[Hn _] | [[_ [Hp _]] | [_ [Hs Hcb]]]];
    [ exfalso; apply Hno; left; exact Hn
    | exfalso; apply Hno; right; exact Hp | ].
  rewrite Hly in Hs, Hcb. cbn [JS.withDefault] in Hs, Hcb.
  assert (Hdec : JS.gtb (Qabs (clientY - ly)) (innerHeight w * 0.14)
                 && canPullClose s = true <-> pulled).
  { unfold pulled. rewrite andb_true_iff, gtb_gt.
    rewrite (Qmult_swap (innerHeight w) 0.14). tauto. }
  clearbody pulled.
  destruct (JS.gtb (Qabs (clientY - ly)) (innerHeight w * 0.14)
            && canPullClose s) eqn:E.
  - assert (Hp : pulled) by (apply Hdec; reflexivity).
    rewrite Hs, Hcb. cbn. intuition congruence.
  - assert (Hp : ~ pulled) by (rewrite <- Hdec; discriminate).
    rewrite Hcb. cbn. intuition congruence.
Qed.

(** C8.  A release that turns no page snaps back, whether or not it calls
    [onClose]: [photoIndex] is kept, [translateX] is the resting offset of
    that index, [backdropOpacity] is [defaultOpacity], [touched] is
    [false], and both baselines are [undefined]. *)
Theorem handleReachUp_snap_back (w : Window) (props : IPhotoSliderProps dataType)
    (clientX clientY : Q) (s : PhotoSliderState) :
  ~ turnsPage props clientX s ->
  let s' := fst (handleReachUp w props clientX clientY s) in
  photoIndex s' = photoIndex s
  /\ translateX s'
     = - (innerWidth w + horizontalOffset) * inject_Z (photoIndex s)
  /\ backdropOpacity s' = defaultOpacity
  /\ touched s' = false
  /\ lastClientX s' = None
  /\ lastClientY s' = None.
Proof.
  intros Hno s'.
  pose proof (handleReachUp_cases w props clientX clientY s) as Hc.
  destruct Hc as [[Hn _] | [[_ [Hp _]] | [_ [Hs _]]]];
    [ exfalso; apply Hno; left; exact Hn
    | exfalso; apply Hno; right; exact Hp | ].
  unfold s'. rewrite Hs. cbn. repeat split.
Qed.

(** ** Moves *)

(** The edge test of [handleReachHorizontalMove], read as [atEdge]. *)
Lemma edge_test (props : IPhotoSliderProps dataType) (delta : Q)
    (s : PhotoSliderState) :
  ((photoIndex s =? 0)%Z && JS.gtb delta 0)
  || ((photoIndex s =? JS.len (images props) - 1)%Z && JS.ltb delta 0)
  = true
  <-> atEdge props delta s.
Proof.
  unfold atEdge.
  rewrite orb_true_iff, !andb_true_iff, !Z.eqb_eq, gtb_gt, ltb_lt.
  reflexivity.
Qed.

(** A move with a baseline [lx] keeps everything but [translateX], which
    becomes the resting offset plus the applied offset. *)
Lemma handleReachHorizontalMove_established (w : Window)
    (props : IPhotoSliderProps dataType) (clientX lx : Q) (s : PhotoSliderState) :
  lastClientX s = Some lx ->
  let s' := handleReachHorizontalMove w props clientX s in
  let applied :=
    if ((photoIndex s =? 0)%Z && JS.gtb (clientX - lx) 0)
       || ((photoIndex s =? JS.len (images props) - 1)%Z
           && JS.ltb (clientX - lx) 0)
    then (clientX - lx) / 2 else clientX - lx in
  translateX s'
  = - (innerWidth w + horizontalOffset) * inject_Z (photoIndex s) + applied
  /\ photoIndex s' = photoIndex s
  /\ lastClientX s' = lastClientX s
  /\ touched s' = true.
Proof.
  intros Hlx. unfold handleReachHorizontalMove. rewrite Hlx. cbn.
  repeat split.
Qed.

(** C2.  At an end of the gallery a move with baseline [lx] applies half of
    the offset: when [photoIndex = 0] and [clientX - lx > 0], or
    [photoIndex = images.length - 1] and [clientX - lx < 0], the new
    [translateX] is
    [-(window.innerWidth + horizontalOffset) * photoIndex
     + (clientX - lx) / 2]. *)
Theorem handleReachHorizontalMove_edge_halved (w : Window)
    (props : IPhotoSliderProps dataType) (clientX lx : Q) (s : PhotoSliderState) :
  lastClientX s = Some lx ->
  atEdge props (clientX - lx) s ->
  translateX (handleReachHorizontalMove w props clientX s)
  = - (innerWidth w + horizontalOffset) * inject_Z (photoIndex s)
    + (clientX - lx) / 2.
Proof.
  intros Hlx Hedge.
  destruct (handleReachHorizontalMove_established w props clientX lx s Hlx)
    as [Ht _].
  rewrite Ht. apply edge_test in Hedge. rewrite Hedge. reflexivity.
Qed.

(** C5.  Away from the ends a move with baseline [lx] applies the offset in
    full: the new [translateX] is
    [-(window.innerWidth + horizontalOffset) * photoIndex + (clientX - lx)],
    [photoIndex] and [lastClientX] are kept, and [touched] is [true]. *)
Theorem handleReachHorizontalMove_paging_offset (w : Window)
    (props : IPhotoSliderProps dataType) (clientX lx : Q) (s : PhotoSliderState) :
  lastClientX s = Some lx ->
  ~ atEdge props (clientX - lx) s ->
  let s' := handleReachHorizontalMove w props clientX s in
  translateX s'
  = - (innerWidth w + horizontalOffset) * inject_Z (photoIndex s)
    + (clientX - lx)
  /\ photoIndex s' = photoIndex s
  /\ lastClientX s' = lastClientX s
  /\ touched s' = true.
Proof.
  intros Hlx Hedge s'.
  destruct (handleReachHorizontalMove_established w props clientX lx s Hlx)
    as [Ht Hrest].
  split; [ | exact Hrest ].
  unfold s'. rewrite Ht.
  destruct (((photoIndex s =? 0)%Z && JS.gtb (clientX - lx) 0)
            || ((photoIndex s =? JS.len (images props) - 1)%Z
                && JS.ltb (clientX - lx) 0)) eqn:E; [ | reflexivity ].
  exfalso. apply Hedge, edge_test, E.
Qed.

(** C4.  A vertical move with baseline [ly]: at [scale = 1] the backdrop
    opacity becomes
    [max(min(defaultOpacity, defaultOpacity - |clientY - ly| / 100 / 2), 0)]
    and [canPullClose] is [true]; at any other scale the opacity becomes
    [defaultOpacity] and [canPullClose] is [false]. *)
Theorem handleReachVerticalMove_opacity (clientY ly : Q) (scale : option Q)
    (s : PhotoSliderState) :
  lastClientY s = Some ly ->
  let s' := handleReachVerticalMove clientY scale s in
  (scaleIsOne scale ->
   backdropOpacity s'
   = Qmax (Qmin defaultOpacity
                (defaultOpacity - Qabs (clientY - ly) / 100 / 2)) 0
   /\ canPullClose s' = true)
  /\ (~ scaleIsOne scale ->
      backdropOpacity s' = defaultOpacity /\ canPullClose s' = false).
Proof.
  intros Hly s'. unfold s', handleReachVerticalMove. rewrite Hly.
  assert (Hone : match scale with
                 | Some v => JS.eqb v 1
                 | None => false
                 end = true <-> scaleIsOne scale).
  { unfold scaleIsOne, JS.eqb. destruct scale as [v | ].
    - rewrite Qeq_bool_iff. split.
      + intros H. exists v. split; [ reflexivity | exact H ].
      + intros [v' [Hv H]]. injection Hv as ->. exact H.
    - split; [ discriminate | intros [v' [Hv _]]; discriminate ]. }
  destruct (match scale with
            | Some v => JS.eqb v 1
            | None => false
            end) eqn:E; cbn; split; intros H; try (split; reflexivity).
  - exfalso. apply H, Hone. reflexivity.
  - apply Hone in H. discriminate.
Qed.

(** C7.  The first move of a gesture only sets the baseline.  Without a
    horizontal baseline, [handleReachHorizontalMove] sets
    [lastClientX = clientX] and [touched = true] and keeps [translateX];
    without a vertical baseline, [handleReachVerticalMove] sets
    [lastClientY = clientY], [touched = true] and [canPullClose = true] and
    keeps [backdropOpacity]. *)
Theorem first_move_sets_baseline (w : Window) (props : IPhotoSliderProps dataType)
    (clientX clientY : Q) (scale : option Q) (s : PhotoSliderState) :
  (lastClientX s = None ->
   let s' := handleReachHorizontalMove w props clientX s in
   lastClientX s' = Some clientX
   /\ touched s' = true
   /\ translateX s' = translateX s)
  /\ (lastClientY s = None ->
      let s' := handleReachVerticalMove clientY scale s in
      lastClientY s' = Some clientY
      /\ touched s' = true
      /\ canPullClose s' = true
      /\ backdropOpacity s' = backdropOpacity s).
Proof.
  split; intros Hnone.
  - unfold handleReachHorizontalMove. rewrite Hnone. cbn. repeat split.
  - unfold handleReachVerticalMove. rewrite Hnone. cbn. repeat split.
Qed.

(** ** Index bookkeeping *)

(** C6.  From a state with [0 <= photoIndex <= images.length - 1],
    [handlePrevious] changes [photoIndex] only when [photoIndex > 0], to
    [photoIndex - 1], and [handleNext] only when
    [photoIndex < images.length - 1], to [photoIndex + 1]; both keep the
    index within the bounds, and at the bound they leave the state as it
    is and fire no callback. *)
Theorem handlePrevious_handleNext_in_bounds (w : Window)
    (props : IPhotoSliderProps dataType) (shouldTransition : option bool)
    (s : PhotoSliderState) :
  inBounds props s ->
  let previous := handlePrevious w props shouldTransition s in
  let next := handleNext w props shouldTransition s in
  (photoIndex (fst previous) <> photoIndex s -> (photoIndex s > 0)%Z)
  /\ ((photoIndex s > 0)%Z ->
      photoIndex (fst previous) = (photoIndex s - 1)%Z)
  /\ (photoIndex (fst next) <> photoIndex s ->
      (photoIndex s < JS.len (images props) - 1)%Z)
  /\ ((photoIndex s < JS.len (images props) - 1)%Z ->
      photoIndex (fst next) = (photoIndex s + 1)%Z)
  /\ inBounds props (fst previous)
  /\ inBounds props (fst next)
  /\ (photoIndex s = 0%Z -> previous = (s, []))
  /\ (photoIndex s = (JS.len (images props) - 1)%Z -> next = (s, [])).
Proof.
  unfold inBounds, handlePrevious, handleNext. intros Hb.
  destruct (photoIndex s >? 0)%Z eqn:E1;
    destruct (photoIndex s <? JS.len (images props) - 1)%Z eqn:E2;
    reflect_tests; cbn; repeat split; intros; try lia; try congruence.
Qed.

(** C10.  Every operation that brings the slider to rest on a page sets
    [translateX = -(window.innerWidth + horizontalOffset) * photoIndex]:
    [getDerivedStateFromProps] when [props.index] is defined and differs
    from the state's index (it returns [null], and the state stays,
    otherwise), [componentDidMount] for [props.index] or [0],
    [handleResize] for the current index and [handleIndexChange] for the
    index it is given. *)
Theorem resting_operations_align (w : Window) (props : IPhotoSliderProps dataType)
    (s : PhotoSliderState) :
  (forall i, index props = Some i -> i <> photoIndex s ->
     getDerivedStateFromProps w props s <> None
     /\ photoIndex (applyDerivedState w props s) = i
     /\ aligned w (applyDerivedState w props s))
  /\ (index props = None \/ index props = Some (photoIndex s) ->
      getDerivedStateFromProps w props s = None
      /\ applyDerivedState w props s = s)
  /\ (photoIndex (componentDidMount w props s)
      = JS.withDefault 0%Z (index props)
      /\ aligned w (componentDidMount w props s))
  /\ (photoIndex (handleResize w s) = photoIndex s
      /\ aligned w (handleResize w s))
  /\ (forall i shouldTransition,
        photoIndex (fst (handleIndexChange w props i shouldTransition s)) = i
        /\ aligned w (fst (handleIndexChange w props i shouldTransition s))).
Proof.
  unfold aligned, applyDerivedState, getDerivedStateFromProps.
  split; [ | split; [ | split; [ | split ] ] ].
  - intros i Hi Hneq. rewrite Hi.
    apply Z.eqb_neq in Hneq. rewrite Hneq. cbn.
    split; [ discriminate | split; reflexivity ].
  - intros [Hi | Hi]; rewrite Hi; [ split; reflexivity | ].
    rewrite Z.eqb_refl. cbn. split; reflexivity.
  - cbn. split; [ reflexivity | apply Qmult_swap ].
  - cbn. split; reflexivity.
  - intros i st. cbn. split; reflexivity.
Qed.

(** ** Rendering *)

Lemma mapFrom_nth_error {A B : Type} (f : A -> Z -> B) (arr : list A) :
  forall (i : Z) (j : nat),
    nth_error (JS.mapFrom f i arr) j
    = option_map (fun a => f a (i + Z.of_nat j)%Z) (nth_error arr j).
Proof.
  induction arr as [ | a arr IH ]; intros i [ | j ]; cbn [JS.mapFrom nth_error].
  - reflexivity.
  - reflexivity.
  - cbn. do 2 f_equal. lia.
  - rewrite IH. destruct (nth_error arr j); cbn; [ | reflexivity ].
    do 2 f_equal. lia.
Qed.

Lemma slice_nth_error {A : Type} (arr : list A) (start end_ : Z) (j : nat) :
  (0 <= start)%Z -> (0 <= end_)%Z ->
  nth_error (JS.slice arr start end_) j
  = if (Z.of_nat j
        <? Z.min end_ (JS.len arr) - Z.min start (JS.len arr))%Z
    then nth_error arr (Z.to_nat (Z.min start (JS.len arr)) + j)
    else None.
Proof.
  intros Hs He. unfold JS.slice, JS.relIndex.
  destruct (start <? 0)%Z eqn:E1; destruct (end_ <? 0)%Z eqn:E2;
    reflect_tests; try lia.
  rewrite nth_error_firstn, nth_error_skipn.
  destruct (j <? _)%nat eqn:E3; destruct (Z.of_nat j <? _)%Z eqn:E4;
    try reflexivity; exfalso;
    [ apply Nat.ltb_lt in E3; apply Z.ltb_ge in E4
    | apply Nat.ltb_ge in E3; apply Z.ltb_lt in E4 ]; lia.
Qed.

(** The [j]-th [<PhotoView>] of a state within bounds: it exists for the
    indices [lo + j <= hi] of the window and shows [images[lo + j]]. *)
Lemma renderPhotoViews_nth_error (w : Window) (props : IPhotoSliderProps dataType)
    (s : PhotoSliderState) (j : nat) :
  inBounds props s ->
  let lo := Z.max (photoIndex s - 1) 0 in
  let hi := Z.min (photoIndex s + 1) (JS.len (images props) - 1) in
  nth_error (renderPhotoViews w props s) j
  = if (Z.of_nat j <? hi - lo + 1)%Z
    then option_map
           (fun a =>
              {| item := a;
                 realIndex := (lo + Z.of_nat j)%Z;
                 styleLeft :=
                   (innerWidth w + horizontalOffset)
                   * inject_Z (lo + Z.of_nat j);
                 isActive := (photoIndex s =? lo + Z.of_nat j)%Z |})
           (JS.get (images props) (lo + Z.of_nat j))
    else None.
Proof.
  intros Hb lo hi. unfold inBounds in Hb.
  unfold renderPhotoViews, JS.map.
  rewrite mapFrom_nth_error, slice_nth_error by lia.
  replace (Z.min (Z.min (photoIndex s + 2) (JS.len (images props) + 1))
                 (JS.len (images props))
           - Z.min (Z.max (photoIndex s - 1) 0) (JS.len (images props)))%Z
    with (hi - lo + 1)%Z by lia.
  destruct (Z.of_nat j <? hi - lo + 1)%Z; [ | reflexivity ].
  unfold JS.get.
  replace (lo + Z.of_nat j <? 0)%Z with false
    by (symmetry; apply Z.ltb_ge; lia).
  replace (Z.to_nat (Z.min (Z.max (photoIndex s - 1) 0)
                           (JS.len (images props))) + j)%nat
    with (Z.to_nat (lo + Z.of_nat j)) by lia.
  destruct (nth_error (images props) (Z.to_nat (lo + Z.of_nat j)));
    [ | reflexivity ].
  cbn [option_map]. f_equal.
  destruct (photoIndex s =? 0)%Z eqn:E; reflect_tests.
  - replace (photoIndex s + (0 + Z.of_nat j))%Z with (lo + Z.of_nat j)%Z
      by lia.
    reflexivity.
  - replace (photoIndex s - 1 + (0 + Z.of_nat j))%Z with (lo + Z.of_nat j)%Z
      by lia.
    reflexivity.
Qed.

Lemma indicesBetween_nth_error (lo hi : Z) (j : nat) :
  nth_error (indicesBetween lo hi) j
  = if (Z.of_nat j <? hi - lo + 1)%Z then Some (lo + Z.of_nat j)%Z else None.
Proof.
  unfold indicesBetween. rewrite nth_error_map, nth_error_seq.
  destruct (j <? _)%nat eqn:E1; destruct (Z.of_nat j <? _)%Z eqn:E2;
    try reflexivity; exfalso;
    [ apply Nat.ltb_lt in E1; apply Z.ltb_ge in E2
    | apply Nat.ltb_ge in E1; apply Z.ltb_lt in E2 ]; lia.
Qed.

Lemma filter_eqb_indices (p lo : Z) (n a : nat) :
  filter (Z.eqb p) (List.map (fun k => (lo + Z.of_nat k)%Z) (seq a n))
  = if ((lo + Z.of_nat a <=? p)%Z && (p <? lo + Z.of_nat a + Z.of_nat n)%Z)
    then [ p ] else [].
Proof.
  revert a. induction n as [ | n IH ]; intros a; cbn [seq List.map filter].
  - destruct (lo + Z.of_nat a <=? p)%Z eqn:E1;
      destruct (p <? lo + Z.of_nat a + Z.of_nat 0)%Z eqn:E2;
      try reflexivity.
    apply Z.leb_le in E1. apply Z.ltb_lt in E2. lia.
  - rewrite IH.
    destruct (p =? lo + Z.of_nat a)%Z eqn:E0;
      destruct (lo + Z.of_nat (S a) <=? p)%Z eqn:E1;
      destruct (p <? lo + Z.of_nat (S a) + Z.of_nat n)%Z eqn:E2;
      destruct (lo + Z.of_nat a <=? p)%Z eqn:E3;
      destruct (p <? lo + Z.of_nat a + Z.of_nat (S n))%Z eqn:E4;
      cbn [andb];
      repeat match goal with
        | H : (_ <=? _)%Z = true |- _ => apply Z.leb_le in H
        | H : (_ <=? _)%Z = false |- _ => apply Z.leb_gt in H
        end;
      reflect_tests;
      first [ reflexivity | f_equal; lia | exfalso; lia ].
Qed.

Lemma map_filter_factor {A B : Type} (f : A -> B) (P : A -> bool)
    (Q' : B -> bool) (l : list A) :
  Forall (fun a => P a = Q' (f a)) l ->
  List.map f (filter P l) = filter Q' (List.map f l).
Proof.
  induction 1 as [ | a l Ha _ IH ]; cbn; [ reflexivity | ].
  rewrite <- Ha. destruct (P a); cbn; rewrite IH; reflexivity.
Qed.

(** C9.  [render] builds [<PhotoView>] elements for the window around the
    current photo only.  With [0 <= photoIndex <= images.length - 1] the
    elements are, in order, those of the indices
    [max(photoIndex - 1, 0) .. min(photoIndex + 1, images.length - 1)]:
    the [realIndex] of each is its index in [images], each shows the image
    at its [realIndex], there are at most three, and exactly the one with
    [realIndex = photoIndex] has [isActive = true].  With no images,
    [currentImage] is [undefined]. *)
Theorem render_adjacent_window (w : Window) (props : IPhotoSliderProps dataType)
    (s : PhotoSliderState) :
  (inBounds props s ->
   let lo := Z.max (photoIndex s - 1) 0 in
   let hi := Z.min (photoIndex s + 1) (JS.len (images props) - 1) in
   let views := renderPhotoViews w props s in
   List.map realIndex views = indicesBetween lo hi
   /\ List.map (fun v => Some (item v)) views
      = List.map (JS.get (images props)) (indicesBetween lo hi)
   /\ Forall (fun v => isActive v = true <-> realIndex v = photoIndex s)
             views
   /\ List.map realIndex (filter isActive views) = [ photoIndex s ]
   /\ (1 <= length views <= 3)%nat)
  /\ (images props = [] -> currentImage props s = None).
Proof.
  split.
  - intros Hb lo hi views.
    pose proof (fun j => renderPhotoViews_nth_error w props s j Hb) as Hnth.
    cbn zeta in Hnth. fold lo hi views in Hnth.
    assert (Hin : forall j, (Z.of_nat j < hi - lo + 1)%Z ->
                   exists a, JS.get (images props) (lo + Z.of_nat j) = Some a).
    { intros j Hj. unfold JS.get.
      replace (lo + Z.of_nat j <? 0)%Z with false
        by (symmetry; apply Z.ltb_ge; lia).
      destruct (nth_error (images props) (Z.to_nat (lo + Z.of_nat j)))
        as [ a | ] eqn:E; [ exists a; reflexivity | ].
      apply nth_error_None in E. unfold inBounds, JS.len in *. lia. }
    assert (Hidx : List.map realIndex views = indicesBetween lo hi).
    { apply nth_error_ext. intros j.
      rewrite nth_error_map, Hnth, indicesBetween_nth_error.
      destruct (Z.of_nat j <? hi - lo + 1)%Z eqn:E; [ | reflexivity ].
      apply Z.ltb_lt in E. destruct (Hin j E) as [a Ha]. rewrite Ha.
      reflexivity. }
    assert (Hact : Forall (fun v => isActive v
                                    = (photoIndex s =? realIndex v)%Z) views).
    { apply Forall_forall. intros v Hv.
      apply In_nth_error in Hv. destruct Hv as [j Hj].
      rewrite Hnth in Hj.
      destruct (Z.of_nat j <? hi - lo + 1)%Z; [ | discriminate ].
      destruct (JS.get (images props) (lo + Z.of_nat j)); [ | discriminate ].
      cbn in Hj. injection Hj as <-. reflexivity. }
    split; [ exact Hidx | ].
    split.
    { apply nth_error_ext. intros j.
      rewrite !nth_error_map, Hnth, indicesBetween_nth_error.
      destruct (Z.of_nat j <? hi - lo + 1)%Z eqn:E; [ | reflexivity ].
      apply Z.ltb_lt in E. destruct (Hin j E) as [a Ha].
      cbn [option_map]. rewrite Ha. reflexivity. }
    split.
    { eapply Forall_impl; [ | exact Hact ].
      intros v Hv. cbn beta in Hv. rewrite Hv, Z.eqb_eq.
      split; intros H; symmetry; exact H. }
    split.
    { rewrite (map_filter_factor realIndex isActive
                 (Z.eqb (photoIndex s)) views Hact), Hidx.
      unfold indicesBetween. rewrite filter_eqb_indices.
      replace ((lo + Z.of_nat 0 <=? photoIndex s)%Z
               && (photoIndex s
                   <? lo + Z.of_nat 0 + Z.of_nat (Z.to_nat (hi - lo + 1)))%Z)
        with true; [ reflexivity | ].
      symmetry. apply andb_true_iff. unfold inBounds in Hb.
      split; [ apply Z.leb_le | apply Z.ltb_lt ]; lia. }
    assert (Hlen : length views = Z.to_nat (hi - lo + 1)).
    { rewrite <- (length_map realIndex), Hidx. unfold indicesBetween.
      rewrite length_map, length_seq. reflexivity. }
    unfold inBounds in Hb. lia.
  - intros Hempty. unfold currentImage. rewrite Hempty. reflexivity.
Qed.

(** ** Whole gestures *)

Lemma Qabs_diag_le (y t : Q) : 0 <= t -> Qabs (y - y) <= t.
Proof.
  intros Ht. apply Qabs_case; intros; lra.
Qed.

(** X1.  Every release ends the gesture, page turn or not: afterwards
    nothing is touched, no baseline is left, and the strip rests on the
    page of the index the release ends on. *)
Theorem handleReachUp_ends_gesture (w : Window)
    (props : IPhotoSliderProps dataType) (clientX clientY : Q)
    (s : PhotoSliderState) :
  idle (fst (handleReachUp w props clientX clientY s))
  /\ aligned w (fst (handleReachUp w props clientX clientY s)).
Proof.
  unfold idle, aligned.
  destruct (handleReachUp_cases w props clientX clientY s)
    as [[_ Ho] | [[_ [_ Ho]] | [_ [Hs _]]]].
  - rewrite Ho. cbn. repeat split.
  - rewrite Ho. cbn. repeat split.
  - rewrite Hs. cbn. repeat split.
Qed.

(** X2.  A release never leaves the gallery: from an index within
    [0 .. images.length - 1] it ends on an index within it, however far
    the pointer went. *)
Theorem handleReachUp_keeps_in_bounds (w : Window)
    (props : IPhotoSliderProps dataType) (clientX clientY : Q)
    (s : PhotoSliderState) :
  inBounds props s ->
  inBounds props (fst (handleReachUp w props clientX clientY s)).
Proof.
  unfold inBounds. intros Hb.
  destruct (handleReachUp_cases w props clientX clientY s)
    as [[Hn Ho] | [[_ [Hp Ho]] | [_ [Hs _]]]].
  - destruct Hn as [_ Hn]. rewrite Ho. cbn. lia.
  - destruct Hp as [_ Hp]. rewrite Ho. cbn. lia.
  - rewrite Hs. cbn. exact Hb.
Qed.

(** X3.  A release that no move preceded does nothing to the outside: with
    no baseline set both offsets are zero, so (for a non-negative
    threshold and window height) no callback is fired, and the index and
    the overlay stay as they are. *)
Theorem handleReachUp_without_move (w : Window)
    (props : IPhotoSliderProps dataType) (clientX clientY : Q)
    (s : PhotoSliderState) :
  0 <= maxMoveOffset ->
  0 <= innerHeight w ->
  lastClientX s = None ->
  lastClientY s = None ->
  snd (handleReachUp w props clientX clientY s) = []
  /\ photoIndex (fst (handleReachUp w props clientX clientY s))
     = photoIndex s
  /\ overlayVisible (fst (handleReachUp w props clientX clientY s))
     = overlayVisible s.
Proof.
  intros Hm Hh Hx Hy. unfold handleReachUp. rewrite Hx, Hy.
  cbn [JS.withDefault].
  replace (JS.ltb (clientX - clientX) (- maxMoveOffset)) with false
    by (symmetry; apply ltb_ge; lra).
  replace (JS.gtb (clientX - clientX) maxMoveOffset) with false
    by (symmetry; apply gtb_le; lra).
  replace (JS.gtb (Qabs (clientY - clientY)) (innerHeight w * 0.14))
    with false
    by (symmetry; apply gtb_le, Qabs_diag_le; lra).
  cbn. repeat split.
Qed.

(** X4.  A drag that ends within the threshold leaves no trace.  From an
    idle slider at rest with the backdrop at [defaultOpacity], two
    horizontal moves and a release at most [maxMoveOffset] away from
    where the drag began fire no callback and give back the state they
    started from, with [shouldTransition] set. *)
Theorem short_drag_returns (w : Window) (props : IPhotoSliderProps dataType)
    (x0 x1 x2 y0 y1 y2 : Q) (scale0 scale1 : option Q)
    (s : PhotoSliderState) :
  0 <= innerHeight w ->
  idle s ->
  aligned w s ->
  backdropOpacity s = defaultOpacity ->
  - maxMoveOffset <= x2 - x0 <= maxMoveOffset ->
  run w props
    [ ReachMove XReach x0 y0 scale0;
      ReachMove XReach x1 y1 scale1;
      ReachUp x2 y2 ] s
  = (setState s [ set_shouldTransition true ], []).
Proof.
  intros Hh [Ht [Hx Hy]] Ha Ho [Hlo Hhi].
  unfold aligned in Ha.
  destruct s as [tx p t st lx ly bo ov cp]. cbn in Ht, Hx, Hy, Ha, Ho.
  subst t lx ly bo.
  cbn [run dispatch handleReachMove].
  unfold handleReachHorizontalMove at 2. cbn [lastClientX setState fold_left assign
    translateX photoIndex touched shouldTransition lastClientY
    backdropOpacity overlayVisible canPullClose].
  unfold handleReachHorizontalMove. cbn [lastClientX setState fold_left assign
    translateX photoIndex touched shouldTransition lastClientY
    backdropOpacity overlayVisible canPullClose].
  unfold handleReachUp. cbn [lastClientX lastClientY JS.withDefault setState
    fold_left assign translateX photoIndex touched shouldTransition
    backdropOpacity overlayVisible canPullClose].
  replace (JS.ltb (x2 - x0) (- maxMoveOffset)) with false
    by (symmetry; apply ltb_ge; lra).
  replace (JS.gtb (x2 - x0) maxMoveOffset) with false
    by (symmetry; apply gtb_le; lra).
  replace (JS.gtb (Qabs (y2 - y2)) (innerHeight w * 0.14)) with false
    by (symmetry; apply gtb_le, Qabs_diag_le; lra).
  cbn. rewrite <- Ha. reflexivity.
Qed.

(** X5.  While a gesture is on, the state after a move depends on the
    baseline and on the latest pointer position only, not on the path:
    with a baseline set, a move after another move gives what the later
    move alone gives, horizontally and vertically. *)
Theorem moves_forget_the_path (w : Window)
    (props : IPhotoSliderProps dataType) (x1 x2 y1 y2 : Q)
    (scale1 scale2 : option Q) (s : PhotoSliderState) :
  (lastClientX s <> None ->
   handleReachHorizontalMove w props x2
     (handleReachHorizontalMove w props x1 s)
   = handleReachHorizontalMove w props x2 s)
  /\ (lastClientY s <> None ->
      handleReachVerticalMove y2 scale2
        (handleReachVerticalMove y1 scale1 s)
      = handleReachVerticalMove y2 scale2 s).
Proof.
  split; intros Hb.
  - unfold handleReachHorizontalMove.
    destruct (lastClientX s) as [lx | ] eqn:E; [ | contradiction ].
    cbn. reflexivity.
  - unfold handleReachVerticalMove.
    destruct (lastClientY s) as [ly | ] eqn:E; [ | contradiction ].
    cbn. reflexivity.
Qed.

(** ** The backdrop while pulling *)

Lemma half_percent (a : Q) : a / 100 / 2 == a * (1 # 200).
Proof. field. Qed.

(** The two clamps of the opacity, each split into its cases. *)
Ltac clamp_cases d a :=
  pose proof (half_percent a);
  destruct (Q.min_spec d (d - a / 100 / 2)) as [[? ?] | [? ?]];
  destruct (Q.max_spec (Qmin d (d - a / 100 / 2)) 0) as [[? ?] | [? ?]];
  generalize dependent (a / 100 / 2); intros.

Lemma fade_range (d a : Q) :
  0 <= d -> 0 <= Qmax (Qmin d (d - a / 100 / 2)) 0 <= d.
Proof. intros. clamp_cases d a; split; lra. Qed.

Lemma fade_linear (d a : Q) :
  0 <= a -> a <= 200 * d ->
  Qmax (Qmin d (d - a / 100 / 2)) 0 == d - a * (1 # 200).
Proof. intros. clamp_cases d a; lra. Qed.

Lemma fade_zero (d a : Q) :
  0 <= a -> (Qmax (Qmin d (d - a / 100 / 2)) 0 == 0 <-> 200 * d <= a).
Proof. intros. clamp_cases d a; split; intros; lra. Qed.

Lemma fade_monotone (d a b : Q) :
  a <= b ->
  Qmax (Qmin d (d - b / 100 / 2)) 0 <= Qmax (Qmin d (d - a / 100 / 2)) 0.
Proof. intros. clamp_cases d a; clamp_cases d b; lra. Qed.

Lemma scaleIsOne_test (scale : option Q) :
  match scale with
  | Some v => JS.eqb v 1
  | None => false
  end = true
  <-> scaleIsOne scale.
Proof.
  unfold scaleIsOne, JS.eqb. destruct scale as [ v | ].
  - rewrite Qeq_bool_iff. split.
    + intros H. exists v. split; [ reflexivity | exact H ].
    + intros [v' [Hv H]]. injection Hv as ->. exact H.
  - split; [ discriminate | intros [v' [Hv _]]; discriminate ].
Qed.

(** The opacity a vertical move at scale 1 sets, and the flag it leaves. *)
Lemma handleReachVerticalMove_at_one (clientY ly : Q) (scale : option Q)
    (s : PhotoSliderState) :
  lastClientY s = Some ly ->
  scaleIsOne scale ->
  backdropOpacity (handleReachVerticalMove clientY scale s)
  = Qmax (Qmin defaultOpacity
               (defaultOpacity - Qabs (clientY - ly) / 100 / 2)) 0.
Proof.
  intros Hly Hone. apply scaleIsOne_test in Hone.
  unfold handleReachVerticalMove. rewrite Hly, Hone. reflexivity.
Qed.

Lemma handleReachVerticalMove_canPullClose (clientY ly : Q)
    (scale : option Q) (s : PhotoSliderState) :
  lastClientY s = Some ly ->
  ~ scaleIsOne scale ->
  canPullClose (handleReachVerticalMove clientY scale s) = false.
Proof.
  intros Hly Hone. unfold handleReachVerticalMove. rewrite Hly. cbn.
  destruct (match scale with
            | Some v => JS.eqb v 1
            | None => false
            end) eqn:E; [ | reflexivity ].
  exfalso. apply Hone, scaleIsOne_test, E.
Qed.

(** X6.  A vertical move never takes the backdrop opacity out of its
    range: if [defaultOpacity] is not negative and the opacity was between
    [0] and [defaultOpacity], it still is, whatever the pointer position,
    the scale and the baseline. *)
Theorem handleReachVerticalMove_opacity_in_range (clientY : Q)
    (scale : option Q) (s : PhotoSliderState) :
  0 <= defaultOpacity ->
  0 <= backdropOpacity s <= defaultOpacity ->
  0 <= backdropOpacity (handleReachVerticalMove clientY scale s)
    <= defaultOpacity.
Proof.
  intros Hd Hs. unfold handleReachVerticalMove.
  destruct (lastClientY s) as [ ly | ]; cbn; [ | exact Hs ].
  destruct (match scale with
            | Some v => JS.eqb v 1
            | None => false
            end).
  - apply fade_range, Hd.
  - split; lra.
Qed.

(** X7.  At scale 1 the backdrop fades linearly with the distance pulled:
    with baseline [ly], the opacity is [defaultOpacity] less one
    two-hundredth per pixel of [|clientY - ly|] up to
    [200 * defaultOpacity] pixels, and it is zero exactly from there
    on. *)
Theorem handleReachVerticalMove_fades_linearly (clientY ly : Q)
    (scale : option Q) (s : PhotoSliderState) :
  lastClientY s = Some ly ->
  scaleIsOne scale ->
  let pulled := Qabs (clientY - ly) in
  let opacity := backdropOpacity (handleReachVerticalMove clientY scale s) in
  (pulled <= 200 * defaultOpacity ->
   opacity == defaultOpacity - pulled * (1 # 200))
  /\ (opacity == 0 <-> 200 * defaultOpacity <= pulled).
Proof.
  intros Hly Hone pulled opacity. unfold opacity.
  rewrite (handleReachVerticalMove_at_one clientY ly scale s Hly Hone).
  fold pulled. pose proof (Qabs_nonneg (clientY - ly)) as Hp. fold pulled in Hp.
  split.
  - intros Hle. apply fade_linear; assumption.
  - apply fade_zero, Hp.
Qed.

(** X8.  Pulling further never brightens the backdrop: at scale 1 and with
    the same baseline, a pointer position further from the baseline gives
    an opacity that is not larger. *)
Theorem handleReachVerticalMove_fades_monotonically (y1 y2 ly : Q)
    (scale1 scale2 : option Q) (s : PhotoSliderState) :
  lastClientY s = Some ly ->
  scaleIsOne scale1 ->
  scaleIsOne scale2 ->
  Qabs (y1 - ly) <= Qabs (y2 - ly) ->
  backdropOpacity (handleReachVerticalMove y2 scale2 s)
  <= backdropOpacity (handleReachVerticalMove y1 scale1 s).
Proof.
  intros Hly H1 H2 Hle.
  rewrite (handleReachVerticalMove_at_one y1 ly scale1 s Hly H1).
  rewrite (handleReachVerticalMove_at_one y2 ly scale2 s Hly H2).
  apply fade_monotone, Hle.
Qed.

(** X9.  A release after a vertical move on a zoomed photo never closes the
    slider: once a move with a baseline set saw a scale other than 1, the
    release that follows does not call [onClose], wherever it happens. *)
Theorem zoomed_pull_never_closes (w : Window)
    (props : IPhotoSliderProps dataType) (moveY ly clientX clientY : Q)
    (scale : option Q) (s : PhotoSliderState) :
  lastClientY s = Some ly ->
  ~ scaleIsOne scale ->
  ~ In onClose
      (snd (handleReachUp w props clientX clientY
              (handleReachVerticalMove moveY scale s))).
Proof.
  intros Hly Hone.
  pose proof (handleReachVerticalMove_canPullClose moveY ly scale s Hly Hone)
    as Hflag.
  destruct (handleReachUp_cases w props clientX clientY
              (handleReachVerticalMove moveY scale s))
    as [[_ Ho] | [[_ [_ Ho]] | [_ [_ Hcb]]]].
  - rewrite Ho. cbn. destruct (hasOnIndexChange props); cbn;
      [ intros [H | []]; discriminate H | intros [] ].
  - rewrite Ho. cbn. destruct (hasOnIndexChange props); cbn;
      [ intros [H | []]; discriminate H | intros [] ].
  - rewrite Hcb, Hflag, andb_false_r. intros [].
Qed.


(** ** The state machine *)










(** ** More on rendering *)

Lemma Forall_mapFrom {A B : Type} (f : A -> Z -> B) (P : B -> Prop)
    (arr : list A) :
  (forall a j, P (f a j)) -> forall i, Forall P (JS.mapFrom f i arr).
Proof.
  intros Hf. induction arr as [ | a arr IH ]; intros i; cbn.
  - constructor.
  - constructor; [ apply Hf | apply IH ].
Qed.

Lemma mapFrom_length {A B : Type} (f : A -> Z -> B) (arr : list A) :
  forall i, length (JS.mapFrom f i arr) = length arr.
Proof.
  induction arr as [ | a arr IH ]; intros i; cbn; [ | rewrite IH ];
    reflexivity.
Qed.

Lemma slice_length {A : Type} (arr : list A) (start end_ : Z) :
  Z.of_nat (length (JS.slice arr start end_))
  = Z.max 0 (JS.relIndex (JS.len arr) end_
             - JS.relIndex (JS.len arr) start).
Proof.
  unfold JS.slice. rewrite length_firstn, length_skipn.
  unfold JS.relIndex, JS.len.
  destruct (start <? 0)%Z eqn:E1; destruct (end_ <? 0)%Z eqn:E2;
    reflect_tests; lia.
Qed.

(** How every rendered view is placed and flagged, whatever the state. *)
Lemma renderPhotoViews_shape (w : Window)
    (props : IPhotoSliderProps dataType) (s : PhotoSliderState) :
  Forall
    (fun v =>
       styleLeft v
       = (innerWidth w + horizontalOffset) * inject_Z (realIndex v)
       /\ isActive v = (photoIndex s =? realIndex v)%Z)
    (renderPhotoViews w props s).
Proof.
  unfold renderPhotoViews, JS.map. apply Forall_mapFrom.
  intros a j. cbn. split; reflexivity.
Qed.

(** X14.  The strip puts the photos where the index says.  When the slider
    rests on its page, every rendered view lies
    [realIndex - photoIndex] page widths from the left edge of the
    window, so the active one lies exactly on it. *)
Theorem resting_views_are_page_aligned (w : Window)
    (props : IPhotoSliderProps dataType) (s : PhotoSliderState) :
  aligned w s ->
  Forall
    (fun v =>
       styleLeft v + translateX s
       == (innerWidth w + horizontalOffset)
          * inject_Z (realIndex v - photoIndex s)
       /\ (isActive v = true -> styleLeft v + translateX s == 0))
    (renderPhotoViews w props s).
Proof.
  unfold aligned. intros Ha.
  eapply Forall_impl; [ | apply renderPhotoViews_shape ].
  intros v [Hl Hact]. rewrite Hl, Ha. split.
  - unfold Z.sub. rewrite inject_Z_plus, inject_Z_opp. ring.
  - intros Hv. rewrite Hact in Hv. apply Z.eqb_eq in Hv. rewrite Hv. ring.
Qed.

(** X15.  The number of views, for every index.  From [photoIndex = -2]
    upwards at most three views are rendered, past either end of the
    gallery too.  Below that the end of the slice is negative and counts
    from the end of [images]: [images.length + photoIndex + 2] views are
    rendered when that is positive, none otherwise. *)
Theorem renderPhotoViews_count (w : Window)
    (props : IPhotoSliderProps dataType) (s : PhotoSliderState) :
  ((- 2 <= photoIndex s)%Z ->
   (length (renderPhotoViews w props s) <= 3)%nat)
  /\ ((photoIndex s <= - 3)%Z ->
      length (renderPhotoViews w props s)
      = Z.to_nat (JS.len (images props) + photoIndex s + 2)).
Proof.
  unfold renderPhotoViews, JS.map.
  rewrite mapFrom_length.
  pose proof (slice_length (images props)
                (Z.max (photoIndex s - 1) 0)
                (Z.min (photoIndex s + 2) (JS.len (images props) + 1)))
    as Hlen.
  unfold JS.relIndex in Hlen.
  assert (Hn : (0 <= JS.len (images props))%Z) by (unfold JS.len; lia).
  destruct (Z.max (photoIndex s - 1) 0 <? 0)%Z eqn:E1;
    destruct (Z.min (photoIndex s + 2) (JS.len (images props) + 1) <? 0)%Z
      eqn:E2;
    reflect_tests; split; intros Hp; lia.
Qed.

Lemma get_in_range {A : Type} (arr : list A) (i : Z) :
  JS.get arr i <> None <-> (0 <= i <= JS.len arr - 1)%Z.
Proof.
  unfold JS.get, JS.len. destruct (i <? 0)%Z eqn:E; reflect_tests.
  - split; [ intros H; contradiction | lia ].
  - rewrite nth_error_Some. lia.
Qed.

(** X16.  [currentImage] and the active view agree.  [currentImage] is
    defined exactly when the index is within the gallery; then a view is
    active, and every active view shows [currentImage]. *)
Theorem currentImage_is_the_active_view (w : Window)
    (props : IPhotoSliderProps dataType) (s : PhotoSliderState) :
  (currentImage props s <> None <-> inBounds props s)
  /\ (inBounds props s ->
      (exists v, In v (renderPhotoViews w props s) /\ isActive v = true)
      /\ Forall
           (fun v => isActive v = true ->
                     currentImage props s = Some (item v))
           (renderPhotoViews w props s)).
Proof.
  assert (Hcur : inBounds props s ->
                 currentImage props s
                 = JS.get (images props) (photoIndex s)).
  { unfold inBounds, currentImage. intros Hb.
    destruct (JS.len (images props) =? 0)%Z eqn:E; reflect_tests;
      [ lia | reflexivity ]. }
  split.
  - split.
    + unfold currentImage, inBounds.
      destruct (JS.len (images props) =? 0)%Z eqn:E; cbn [negb];
        [ intros H; contradiction | apply get_in_range ].
    + intros Hb. rewrite (Hcur Hb). apply get_in_range, Hb.
  - intros Hb.
    pose proof (fun j => renderPhotoViews_nth_error w props s j Hb) as Hnth.
    cbn zeta in Hnth. rewrite (Hcur Hb).
    set (lo := Z.max (photoIndex s - 1) 0) in *.
    set (hi := Z.min (photoIndex s + 1) (JS.len (images props) - 1)) in *.
    destruct (JS.get (images props) (photoIndex s)) as [ a | ] eqn:Ea;
      [ | exfalso; revert Ea; apply get_in_range, Hb ].
    unfold inBounds in Hb.
    split.
    + specialize (Hnth (Z.to_nat (photoIndex s - lo))).
      replace (lo + Z.of_nat (Z.to_nat (photoIndex s - lo)))%Z
        with (photoIndex s) in Hnth by lia.
      replace (Z.of_nat (Z.to_nat (photoIndex s - lo)) <? hi - lo + 1)%Z
        with true in Hnth by (symmetry; apply Z.ltb_lt; lia).
      rewrite Ea in Hnth. cbn [option_map] in Hnth.
      eexists. split; [ eapply nth_error_In, Hnth | ].
      cbn. apply Z.eqb_refl.
    + apply Forall_forall. intros v Hv Hact.
      apply In_nth_error in Hv. destruct Hv as [j Hj].
      rewrite Hnth in Hj.
      destruct (Z.of_nat j <? hi - lo + 1)%Z; [ | discriminate ].
      destruct (JS.get (images props) (lo + Z.of_nat j)) as [ b | ] eqn:Eb;
        [ | discriminate ].
      cbn in Hj. injection Hj as <-. cbn in Hact |- *.
      apply Z.eqb_eq in Hact. rewrite <- Hact in Eb. congruence.
Qed.

(** X17.  Drags follow the pointer, swipes glide, keys jump.  After a
    horizontal or vertical move no view has a [transition]; after a
    release that turns the page every view has one; after an arrow key
    that turns the page none has. *)
Theorem transition_by_cause (w : Window)
    (props : IPhotoSliderProps dataType) (clientX clientY : Q)
    (scale : option Q) (s : PhotoSliderState) :
  renderTransition (handleReachMove w props XReach clientX clientY scale s)
  = None
  /\ renderTransition
       (handleReachMove w props YReach clientX clientY scale s)
     = None
  /\ (turnsPage props clientX s ->
      renderTransition (fst (handleReachUp w props clientX clientY s))
      <> None)
  /\ (visible props = true ->
      forall key,
        photoIndex (fst (handleKeyDown w props key s)) <> photoIndex s ->
        renderTransition (fst (handleKeyDown w props key s)) = None).
Proof.
  split; [ | split; [ | split ] ].
  - cbn [handleReachMove]. unfold handleReachHorizontalMove.
    destruct (lastClientX s); reflexivity.
  - cbn [handleReachMove]. unfold handleReachVerticalMove.
    destruct (lastClientY s); reflexivity.
  - intros Hturn.
    destruct (handleReachUp_cases w props clientX clientY s)
      as [[_ Ho] | [[_ [_ Ho]] | [Hno _]]];
      [ rewrite Ho; cbn; discriminate
      | rewrite Ho; cbn; discriminate
      | contradiction ].
  - intros Hv key. unfold handleKeyDown, handlePrevious, handleNext,
      handleClose. rewrite Hv.
    destruct key; cbn.
    + destruct (photoIndex s >? 0)%Z; cbn; [ reflexivity | congruence ].
    + destruct (photoIndex s <? JS.len (images props) - 1)%Z; cbn;
        [ reflexivity | congruence ].
    + congruence.
    + congruence.
Qed.

(** ** Props, resize and keys *)

(** X18.  A controlled index wins and settles at once: with [props.index]
    defined, the derived state has that index and rests on its page
    whenever the state did or the index changed, and deriving the state
    again changes nothing. *)
Theorem applyDerivedState_settles (w : Window)
    (props : IPhotoSliderProps dataType) (s : PhotoSliderState) :
  (forall i, index props = Some i ->
     photoIndex (applyDerivedState w props s) = i
     /\ (aligned w s \/ i <> photoIndex s ->
         aligned w (applyDerivedState w props s)))
  /\ applyDerivedState w props (applyDerivedState w props s)
     = applyDerivedState w props s.
Proof.
  unfold applyDerivedState, getDerivedStateFromProps, aligned.
  destruct (index props) as [ i | ]; [ | split; [ discriminate | reflexivity ] ].
  destruct (i =? photoIndex s)%Z eqn:E; cbn; reflect_tests.
  - split.
    + intros j Hj. injection Hj as <-. split; [ auto | ].
      intros [Ha | Hne]; [ exact Ha | contradiction ].
    + rewrite (proj2 (Z.eqb_eq i (photoIndex s)) E). reflexivity.
  - split.
    + intros j Hj. injection Hj as <-. split; reflexivity.
    + rewrite Z.eqb_refl. reflexivity.
Qed.

(** X19.  Only the last resize counts, and a resize restarts a gesture: two
    resizes give what the second alone gives, and the first horizontal
    move after a resize finds no baseline, so it records the pointer and
    leaves the strip on its page. *)
Theorem handleResize_restarts (w1 w2 : Window)
    (props : IPhotoSliderProps dataType) (clientX : Q)
    (s : PhotoSliderState) :
  handleResize w2 (handleResize w1 s) = handleResize w2 s
  /\ lastClientX (handleReachHorizontalMove w2 props clientX
                    (handleResize w2 s))
     = Some clientX
  /\ aligned w2 (handleReachHorizontalMove w2 props clientX
                   (handleResize w2 s))
  /\ photoIndex (handleResize w2 s) = photoIndex s.
Proof.
  unfold aligned. repeat split.
Qed.



(** X22.  A page turn takes precedence over everything else a release
    does: when the release turns the page, [onClose] is not called however
    far the pointer was pulled down, and the backdrop opacity, the overlay
    and [canPullClose] stay as the moves left them. *)
Theorem page_turn_skips_the_snap_back (w : Window)
    (props : IPhotoSliderProps dataType) (clientX clientY : Q)
    (s : PhotoSliderState) :
  turnsPage props clientX s ->
  let out := handleReachUp w props clientX clientY s in
  ~ In onClose (snd out)
  /\ backdropOpacity (fst out) = backdropOpacity s
  /\ overlayVisible (fst out) = overlayVisible s
  /\ canPullClose (fst out) = canPullClose s.
Proof.
  intros Hturn out. unfold out.
  destruct (handleReachUp_cases w props clientX clientY s)
    as [[_ Ho] | [[_ [_ Ho]] | [Hno _]]]; [ | | contradiction ];
    rewrite Ho; cbn; (split; [ | repeat split ]);
    destruct (hasOnIndexChange props); cbn;
    intros Hin; repeat destruct Hin as [Hin | Hin];
    discriminate Hin || contradiction.
Qed.

End PhotoSliderFacts.

(** ** The statements at work on the gallery *)

(** Releasing 100 pixels to the left of the baseline turns to the fourth
    photo. *)
Lemma handleReachUp_page_turn_thresholds_witness :
  0 <= maxMoveOffset (variables := demoVariables)
  /\ lastClientX demoDragX = Some 200
  /\ photoIndex
       (fst (handleReachUp (vars := demoVariables) demoWindow demoProps
               100 300 demoDragX))
     = 3%Z.
Proof.
  assert (Hm : 0 <= maxMoveOffset (variables := demoVariables))
    by (vm_compute; discriminate).
  assert (Hlx : lastClientX demoDragX = Some 200) by reflexivity.
  split; [ exact Hm | split; [ exact Hlx | ] ].
  destruct (handleReachUp_page_turn_thresholds (vars := demoVariables)
              demoWindow demoProps 100 300 200 demoDragX Hm Hlx)
    as [Hnext _].
  apply Hnext. split; reflexivity.
Defined.

(** On the first photo a drag of 60 pixels to the right moves the strip by
    30. *)
Lemma handleReachHorizontalMove_edge_halved_witness :
  lastClientX demoDragFirst = Some 200
  /\ atEdge demoProps (260 - 200) demoDragFirst
  /\ translateX
       (handleReachHorizontalMove (vars := demoVariables) demoWindow
          demoProps 260 demoDragFirst)
     == 30.
Proof.
  assert (Hlx : lastClientX demoDragFirst = Some 200) by reflexivity.
  assert (Hedge : atEdge demoProps (260 - 200) demoDragFirst)
    by (left; split; reflexivity).
  split; [ exact Hlx | split; [ exact Hedge | ] ].
  rewrite (handleReachHorizontalMove_edge_halved (vars := demoVariables)
             demoWindow demoProps 260 200 demoDragFirst Hlx Hedge).
  vm_compute. reflexivity.
Defined.

(** Releasing 150 pixels below the baseline, on a 667 pixel high window,
    closes the slider. *)
Lemma handleReachUp_pull_to_close_witness :
  lastClientY demoDragY = Some 300
  /\ ~ turnsPage (vars := demoVariables) demoProps 100 demoDragY
  /\ snd (handleReachUp (vars := demoVariables) demoWindow demoProps
            100 450 demoDragY)
     = [ onClose ].
Proof.
  assert (Hly : lastClientY demoDragY = Some 300) by reflexivity.
  assert (Hno : ~ turnsPage (vars := demoVariables) demoProps 100 demoDragY)
    by (intros [[H _] | [H _]]; vm_compute in H; discriminate H).
  split; [ exact Hly | split; [ exact Hno | ] ].
  destruct (handleReachUp_pull_to_close (vars := demoVariables) demoWindow
              demoProps 100 450 300 demoDragY Hly Hno)
    as [_ [Hpulled _]].
  apply Hpulled. split; reflexivity.
Defined.

(** Pulling down by 50 pixels at scale 1 dims the backdrop to three
    quarters. *)
Lemma handleReachVerticalMove_opacity_witness :
  lastClientY demoDragY = Some 300
  /\ scaleIsOne (Some 1)
  /\ backdropOpacity
       (handleReachVerticalMove (vars := demoVariables) 350 (Some 1)
          demoDragY)
     == 3 # 4.
Proof.
  assert (Hly : lastClientY demoDragY = Some 300) by reflexivity.
  assert (Hone : scaleIsOne (Some 1))
    by (exists 1; split; reflexivity).
  split; [ exact Hly | split; [ exact Hone | ] ].
  destruct (handleReachVerticalMove_opacity (vars := demoVariables) 350 300
              (Some 1) demoDragY Hly)
    as [Hat_one _].
  destruct (Hat_one Hone) as [Hopacity _].
  rewrite Hopacity. vm_compute. reflexivity.
Defined.

(** On the third photo a drag of 60 pixels to the right moves the strip by
    60. *)
Lemma handleReachHorizontalMove_paging_offset_witness :
  lastClientX demoDragX = Some 200
  /\ ~ atEdge demoProps (260 - 200) demoDragX
  /\ translateX
       (handleReachHorizontalMove (vars := demoVariables) demoWindow
          demoProps 260 demoDragX)
     == - 730.
Proof.
  assert (Hlx : lastClientX demoDragX = Some 200) by reflexivity.
  assert (Hedge : ~ atEdge demoProps (260 - 200) demoDragX)
    by (intros [[H _] | [H _]]; vm_compute in H; discriminate H).
  split; [ exact Hlx | split; [ exact Hedge | ] ].
  destruct (handleReachHorizontalMove_paging_offset (vars := demoVariables)
              demoWindow demoProps 260 200 demoDragX Hlx Hedge)
    as [Ht _].
  rewrite Ht. vm_compute. reflexivity.
Defined.

(** From the third of five photos both neighbours are reachable. *)
Lemma handlePrevious_handleNext_in_bounds_witness :
  inBounds demoProps demoThird
  /\ photoIndex
       (fst (handlePrevious (vars := demoVariables) demoWindow demoProps
               None demoThird))
     = 1%Z
  /\ photoIndex
       (fst (handleNext (vars := demoVariables) demoWindow demoProps
               None demoThird))
     = 3%Z.
Proof.
  assert (Hb : inBounds demoProps demoThird)
    by (split; intros H; discriminate H).
  split; [ exact Hb | ].
  destruct (handlePrevious_handleNext_in_bounds (vars := demoVariables)
              demoWindow demoProps None demoThird Hb)
    as [_ [Hprev [_ [Hnext _]]]].
  split; [ apply Hprev | apply Hnext ]; reflexivity.
Defined.

(** The first horizontal move on the third photo records [x = 200] and
    leaves the strip where it is. *)
Lemma first_move_sets_baseline_witness :
  lastClientX demoThird = None
  /\ lastClientX demoDragX = Some 200
  /\ translateX demoDragX = translateX demoThird.
Proof.
  assert (Hnone : lastClientX demoThird = None) by reflexivity.
  split; [ exact Hnone | ].
  destruct (first_move_sets_baseline (vars := demoVariables) demoWindow
              demoProps 200 300 (Some 1) demoThird)
    as [Hx _].
  destruct (Hx Hnone) as [Hlx [_ Ht]].
  split; [ exact Hlx | exact Ht ].
Defined.

(** Releasing 30 pixels to the right of the baseline is not enough for a
    page turn: the strip snaps back to the third photo. *)
Lemma handleReachUp_snap_back_witness :
  ~ turnsPage (vars := demoVariables) demoProps 230 demoDragX
  /\ photoIndex
       (fst (handleReachUp (vars := demoVariables) demoWindow demoProps
               230 300 demoDragX))
     = 2%Z
  /\ translateX
       (fst (handleReachUp (vars := demoVariables) demoWindow demoProps
               230 300 demoDragX))
     == - 790.
Proof.
  assert (Hno : ~ turnsPage (vars := demoVariables) demoProps 230 demoDragX)
    by (intros [[H _] | [H _]]; vm_compute in H; discriminate H).
  split; [ exact Hno | ].
  destruct (handleReachUp_snap_back (vars := demoVariables) demoWindow
              demoProps 230 300 demoDragX Hno)
    as [Hp [Ht _]].
  split; [ exact Hp | ].
  rewrite Ht. vm_compute. reflexivity.
Defined.

(** On the third of five photos the second, third and fourth are
    rendered, the third as the active one. *)
Lemma render_adjacent_window_witness :
  inBounds demoProps demoThird
  /\ List.map realIndex
       (renderPhotoViews (vars := demoVariables) demoWindow demoProps
          demoThird)
     = [ 1; 2; 3 ]%Z
  /\ List.map realIndex
       (filter isActive
          (renderPhotoViews (vars := demoVariables) demoWindow demoProps
             demoThird))
     = [ 2%Z ].
Proof.
  assert (Hb : inBounds demoProps demoThird)
    by (split; intros H; discriminate H).
  split; [ exact Hb | ].
  destruct (render_adjacent_window (vars := demoVariables) demoWindow
              demoProps demoThird)
    as [Hwindow _].
  destruct (Hwindow Hb) as [Hidx [_ [_ [Hactive _]]]].
  split; [ exact Hidx | exact Hactive ].
Defined.

(** A controlled index of 4 moves the slider from the third photo to the
    fifth, at rest on its page. *)
Lemma resting_operations_align_witness :
  index demoControlled = Some 4%Z
  /\ 4%Z <> photoIndex demoThird
  /\ photoIndex
       (applyDerivedState (vars := demoVariables) demoWindow demoControlled
          demoThird)
     = 4%Z
  /\ translateX
       (applyDerivedState (vars := demoVariables) demoWindow demoControlled
          demoThird)
     == - 1580.
Proof.
  assert (Hi : index demoControlled = Some 4%Z) by reflexivity.
  assert (Hneq : 4%Z <> photoIndex demoThird) by (intros H; discriminate H).
  split; [ exact Hi | split; [ exact Hneq | ] ].
  destruct (resting_operations_align (vars := demoVariables) demoWindow
              demoControlled demoThird)
    as [Hderived _].
  destruct (Hderived 4%Z Hi Hneq) as [_ [Hp Ha]].
  split; [ exact Hp | ].
  unfold aligned in Ha. rewrite Ha, Hp. vm_compute. reflexivity.
Defined.

(** *** Whole gestures, the backdrop and the state machine *)


(** A release 200 pixels to the left of the baseline ends on the fourth
    photo, within the gallery. *)
Lemma handleReachUp_keeps_in_bounds_witness :
  inBounds demoProps demoDragX
  /\ inBounds demoProps
       (fst (handleReachUp (vars := demoVariables) demoWindow demoProps
               0 300 demoDragX)).
Proof.
  assert (Hb : inBounds demoProps demoDragX)
    by (split; intros H; discriminate H).
  split; [ exact Hb | ].
  exact (handleReachUp_keeps_in_bounds (vars := demoVariables) demoWindow
           demoProps 0 300 demoDragX Hb).
Defined.

(** A release on the idle third photo fires nothing. *)
Lemma handleReachUp_without_move_witness :
  0 <= maxMoveOffset (variables := demoVariables)
  /\ 0 <= innerHeight demoWindow
  /\ lastClientX demoThird = None
  /\ lastClientY demoThird = None
  /\ snd (handleReachUp (vars := demoVariables) demoWindow demoProps
            50 60 demoThird)
     = [].
Proof.
  assert (Hm : 0 <= maxMoveOffset (variables := demoVariables))
    by (intros H; discriminate H).
  assert (Hh : 0 <= innerHeight demoWindow) by (intros H; discriminate H).
  assert (Hx : lastClientX demoThird = None) by reflexivity.
  assert (Hy : lastClientY demoThird = None) by reflexivity.
  repeat (split; [ assumption | ]).
  destruct (handleReachUp_without_move (vars := demoVariables) demoWindow
              demoProps 50 60 demoThird Hm Hh Hx Hy)
    as [Hquiet _].
  exact Hquiet.
Defined.

(** A drag from 200 over 260 back to 230 on the third photo leaves it as
    it was. *)
Lemma short_drag_returns_witness :
  0 <= innerHeight demoWindow
  /\ idle demoThird
  /\ aligned (vars := demoVariables) demoWindow demoThird
  /\ backdropOpacity demoThird = defaultOpacity (variables := demoVariables)
  /\ - maxMoveOffset (variables := demoVariables) <= 230 - 200
     <= maxMoveOffset (variables := demoVariables)
  /\ run (vars := demoVariables) demoWindow demoProps
       [ ReachMove XReach 200 300 (Some 1);
         ReachMove XReach 260 300 (Some 1);
         ReachUp 230 300 ] demoThird
     = (setState demoThird [ set_shouldTransition true ], []).
Proof.
  assert (Hh : 0 <= innerHeight demoWindow) by (intros H; discriminate H).
  assert (Hi : idle demoThird) by (repeat split).
  assert (Ha : aligned (vars := demoVariables) demoWindow demoThird)
    by reflexivity.
  assert (Ho : backdropOpacity demoThird
               = defaultOpacity (variables := demoVariables))
    by reflexivity.
  assert (Hd : - maxMoveOffset (variables := demoVariables) <= 230 - 200
               <= maxMoveOffset (variables := demoVariables))
    by (split; intros H; discriminate H).
  repeat (split; [ assumption | ]).
  exact (short_drag_returns (vars := demoVariables) demoWindow demoProps
           200 260 230 300 300 300 (Some 1) (Some 1) demoThird
           Hh Hi Ha Ho Hd).
Defined.

(** With the baseline at 200, moving to 230 and then to 260 places the
    strip as moving to 260 at once does. *)
Lemma moves_forget_the_path_witness :
  lastClientX demoDragX <> None
  /\ handleReachHorizontalMove (vars := demoVariables) demoWindow demoProps
       260
       (handleReachHorizontalMove (vars := demoVariables) demoWindow
          demoProps 230 demoDragX)
     = handleReachHorizontalMove (vars := demoVariables) demoWindow
         demoProps 260 demoDragX.
Proof.
  assert (Hb : lastClientX demoDragX <> None) by (intros H; discriminate H).
  split; [ exact Hb | ].
  destruct (moves_forget_the_path (vars := demoVariables) demoWindow
              demoProps 230 260 300 300 (Some 1) (Some 1) demoDragX)
    as [Hx _].
  exact (Hx Hb).
Defined.

(** Pulling a thousand pixels keeps the opacity within [0 .. 1]. *)
Lemma handleReachVerticalMove_opacity_in_range_witness :
  0 <= defaultOpacity (variables := demoVariables)
  /\ 0 <= backdropOpacity demoDragY
     <= defaultOpacity (variables := demoVariables)
  /\ 0 <= backdropOpacity
            (handleReachVerticalMove (vars := demoVariables) 1300 (Some 1)
               demoDragY)
     <= defaultOpacity (variables := demoVariables).
Proof.
  assert (Hd : 0 <= defaultOpacity (variables := demoVariables))
    by (intros H; discriminate H).
  assert (Hs : 0 <= backdropOpacity demoDragY
               <= defaultOpacity (variables := demoVariables))
    by (split; intros H; discriminate H).
  split; [ exact Hd | split; [ exact Hs | ] ].
  exact (handleReachVerticalMove_opacity_in_range (vars := demoVariables)
           1300 (Some 1) demoDragY Hd Hs).
Defined.

(** Pulled 300 pixels, the backdrop is fully transparent. *)
Lemma handleReachVerticalMove_fades_linearly_witness :
  lastClientY demoDragY = Some 300
  /\ scaleIsOne (Some 1)
  /\ backdropOpacity
       (handleReachVerticalMove (vars := demoVariables) 600 (Some 1)
          demoDragY)
     == 0.
Proof.
  assert (Hly : lastClientY demoDragY = Some 300) by reflexivity.
  assert (Hone : scaleIsOne (Some 1)) by (exists 1; split; reflexivity).
  split; [ exact Hly | split; [ exact Hone | ] ].
  destruct (handleReachVerticalMove_fades_linearly (vars := demoVariables)
              600 300 (Some 1) demoDragY Hly Hone)
    as [_ [_ Hzero]].
  apply Hzero. intros H. discriminate H.
Defined.

(** Pulled 100 pixels the backdrop is no brighter than pulled 50. *)
Lemma handleReachVerticalMove_fades_monotonically_witness :
  lastClientY demoDragY = Some 300
  /\ scaleIsOne (Some 1)
  /\ Qabs (350 - 300) <= Qabs (200 - 300)
  /\ backdropOpacity
       (handleReachVerticalMove (vars := demoVariables) 200 (Some 1)
          demoDragY)
     <= backdropOpacity
          (handleReachVerticalMove (vars := demoVariables) 350 (Some 1)
             demoDragY).
Proof.
  assert (Hly : lastClientY demoDragY = Some 300) by reflexivity.
  assert (Hone : scaleIsOne (Some 1)) by (exists 1; split; reflexivity).
  assert (Hle : Qabs (350 - 300) <= Qabs (200 - 300))
    by (intros H; discriminate H).
  repeat (split; [ assumption | ]).
  exact (handleReachVerticalMove_fades_monotonically (vars := demoVariables)
           350 200 300 (Some 1) (Some 1) demoDragY Hly Hone Hone Hle).
Defined.

(** At scale 2 a pull of 300 pixels does not close the slider. *)
Lemma zoomed_pull_never_closes_witness :
  lastClientY demoDragY = Some 300
  /\ ~ scaleIsOne (Some 2)
  /\ ~ In onClose
         (snd (handleReachUp (vars := demoVariables) demoWindow demoProps
                 100 600
                 (handleReachVerticalMove (vars := demoVariables) 600
                    (Some 2) demoDragY))).
Proof.
  assert (Hly : lastClientY demoDragY = Some 300) by reflexivity.
  assert (Hone : ~ scaleIsOne (Some 2)).
  { intros [v [Hv H]]. injection Hv as <-. discriminate H. }
  split; [ exact Hly | split; [ exact Hone | ] ].
  exact (zoomed_pull_never_closes (vars := demoVariables) demoWindow
           demoProps 600 300 100 600 (Some 2) demoDragY Hly Hone).
Defined.




(** *** Rendering, props and keys *)

(** At rest on the third photo its neighbours lie one page to either
    side. *)
Lemma resting_views_are_page_aligned_witness :
  aligned (vars := demoVariables) demoWindow demoThird
  /\ Forall
       (fun v =>
          styleLeft v + translateX demoThird
          == (innerWidth demoWindow
              + horizontalOffset (variables := demoVariables))
             * inject_Z (realIndex v - photoIndex demoThird)
          /\ (isActive v = true -> styleLeft v + translateX demoThird == 0))
       (renderPhotoViews (vars := demoVariables) demoWindow demoProps
          demoThird).
Proof.
  assert (Ha : aligned (vars := demoVariables) demoWindow demoThird)
    by reflexivity.
  split; [ exact Ha | ].
  exact (resting_views_are_page_aligned (vars := demoVariables) demoWindow
           demoProps demoThird Ha).
Defined.

(** With the index at [-3] four of the five photos are rendered. *)
Lemma renderPhotoViews_count_witness :
  (photoIndex demoBelowState <= - 3)%Z
  /\ length (renderPhotoViews (vars := demoVariables) demoWindow demoBelow
               demoBelowState)
     = 4%nat.
Proof.
  assert (Hp : (photoIndex demoBelowState <= - 3)%Z)
    by (intros H; discriminate H).
  split; [ exact Hp | ].
  destruct (renderPhotoViews_count (vars := demoVariables) demoWindow
              demoBelow demoBelowState)
    as [_ Hbelow].
  exact (Hbelow Hp).
Defined.

(** On the third photo [currentImage] is defined. *)
Lemma currentImage_is_the_active_view_witness :
  inBounds demoProps demoThird
  /\ currentImage demoProps demoThird <> None.
Proof.
  assert (Hb : inBounds demoProps demoThird)
    by (split; intros H; discriminate H).
  split; [ exact Hb | ].
  destruct (currentImage_is_the_active_view (vars := demoVariables)
              demoWindow demoProps demoThird)
    as [[_ Hdefined] _].
  exact (Hdefined Hb).
Defined.

(** The release that turns to the fourth photo is animated. *)
Lemma transition_by_cause_witness :
  turnsPage (vars := demoVariables) demoProps 100 demoDragX
  /\ renderTransition
       (fst (handleReachUp (vars := demoVariables) demoWindow demoProps
               100 300 demoDragX))
     <> None.
Proof.
  assert (Ht : turnsPage (vars := demoVariables) demoProps 100 demoDragX)
    by (left; split; reflexivity).
  split; [ exact Ht | ].
  destruct (transition_by_cause (vars := demoVariables) demoWindow demoProps
              100 300 (Some 1) demoDragX)
    as [_ [_ [Hswipe _]]].
  exact (Hswipe Ht).
Defined.

(** Deriving the state from the controlled gallery puts it on the fifth
    photo. *)
Lemma applyDerivedState_settles_witness :
  index demoControlled = Some 4%Z
  /\ photoIndex
       (applyDerivedState (vars := demoVariables) demoWindow demoControlled
          demoMounted)
     = 4%Z.
Proof.
  assert (Hi : index demoControlled = Some 4%Z) by reflexivity.
  split; [ exact Hi | ].
  destruct (applyDerivedState_settles (vars := demoVariables) demoWindow
              demoControlled demoMounted)
    as [Hwins _].
  destruct (Hwins 4%Z Hi) as [Hp _].
  exact Hp.
Defined.



(** The release that turns to the fourth photo leaves a dimmed backdrop
    dimmed. *)
Lemma page_turn_skips_the_snap_back_witness :
  turnsPage (vars := demoVariables) demoProps 100
    (handleReachVerticalMove (vars := demoVariables) 350 (Some 1)
       (handleReachVerticalMove (vars := demoVariables) 300 (Some 1)
          demoDragX))
  /\ backdropOpacity
       (fst (handleReachUp (vars := demoVariables) demoWindow demoProps
               100 350
               (handleReachVerticalMove (vars := demoVariables) 350 (Some 1)
                  (handleReachVerticalMove (vars := demoVariables) 300
                     (Some 1) demoDragX))))
     = 150 # 200.
Proof.
  assert (Ht : turnsPage (vars := demoVariables) demoProps 100
                 (handleReachVerticalMove (vars := demoVariables) 350
                    (Some 1)
                    (handleReachVerticalMove (vars := demoVariables) 300
                       (Some 1) demoDragX)))
    by (left; split; reflexivity).
  split; [ exact Ht | ].
  destruct (page_turn_skips_the_snap_back (vars := demoVariables) demoWindow
              demoProps 100 350 _ Ht)
    as [_ [Hopacity _]].
  rewrite Hopacity. reflexivity.
Defined.

(** *** Runs *)

Example release_turns_and_notifies :
  handleReachUp (vars := demoVariables) demoWindow demoProps 100 300 demoDragX
  = ({| translateX := - 1185; photoIndex := 3; touched := false;
        shouldTransition := true; lastClientX := None; lastClientY := None;
        backdropOpacity := 1; overlayVisible := true;
        canPullClose := true |},
     [ onIndexChange 3 ]).
Proof. vm_compute. reflexivity. Qed.

Example first_photo_has_two_views :
  List.map (fun v => (item v, realIndex v, isActive v))
    (renderPhotoViews (vars := demoVariables) demoWindow demoProps
       demoMounted)
  = [ (1%nat, 0%Z, true); (2%nat, 1%Z, false) ].
Proof. reflexivity. Qed.

Example last_photo_has_two_views :
  List.map (fun v => (item v, realIndex v, isActive v))
    (renderPhotoViews (vars := demoVariables) demoWindow demoProps
       (fst (handleIndexChange (vars := demoVariables) demoWindow demoProps
               4%Z None demoMounted)))
  = [ (4%nat, 3%Z, false); (5%nat, 4%Z, true) ].
Proof. reflexivity. Qed.

Example arrow_left_on_first_photo_does_nothing :
  handleKeyDown (vars := demoVariables) demoWindow demoProps ArrowLeft
    demoMounted
  = (demoMounted, []).
Proof. reflexivity. Qed.

Example index_below_zero_renders_four :
  List.map (fun v => (item v, realIndex v, isActive v))
    (renderPhotoViews (vars := demoVariables) demoWindow demoBelow
       demoBelowState)
  = [ (1%nat, (- 4)%Z, false); (2%nat, (- 3)%Z, true);
      (3%nat, (- 2)%Z, false); (4%nat, (- 1)%Z, false) ].
Proof. reflexivity. Qed.

Example page_turn_keeps_a_dimmed_backdrop :
  fst (run (vars := demoVariables) demoWindow demoProps
         [ ReachMove YReach 200 300 (Some 1);
           ReachMove YReach 200 350 (Some 1);
           ReachMove XReach 200 350 (Some 1);
           ReachUp 100 350 ]
         demoThird)
  = {| translateX := - 1185; photoIndex := 3; touched := false;
       shouldTransition := true; lastClientX := None; lastClientY := None;
       backdropOpacity := 150 # 200; overlayVisible := true;
       canPullClose := true |}.
Proof. vm_compute. reflexivity. Qed.
